(** * Reflective-journal generator (RJ.py): model and verified properties

    A shallow embedding of [RJ.py].  Python [str] values are sequences of
    Unicode code points, so a string is a list of code points; the
    Streamlit script, its environment, the file system, the remote model
    and the external converter are threaded through an explicit world. *)

From Stdlib Require Import ZArith NArith List Ascii String Lia Bool DecimalString.
From stdpp Require Import gmap list.
From Equations Require Import Equations.

Local Open Scope Z_scope.

(** ** Python strings *)

(** A character is a Unicode code point, a [str] a list of them. *)
Abbreviation char := N.
Abbreviation str := (list N).

Definition of_ascii_string (s : string) : str :=
  map N_of_ascii (list_ascii_of_string s).

(** Source literals are read as UTF-8, as Python reads the source file. *)
Fixpoint utf8_decode (bs : list N) : str :=
  match bs with
  | [] => []
  | b0 :: r0 =>
    if (b0 <? 128)%N then b0 :: utf8_decode r0
    else match r0 with
         | [] => [b0]
         | b1 :: r1 =>
           if (b0 <? 224)%N
           then ((b0 - 192) * 64 + (b1 - 128))%N :: utf8_decode r1
           else match r1 with
                | [] => [b0; b1]
                | b2 :: r2 =>
                  if (b0 <? 240)%N
                  then ((b0 - 224) * 4096 + (b1 - 128) * 64 + (b2 - 128))%N
                         :: utf8_decode r2
                  else match r2 with
                       | [] => [b0; b1; b2]
                       | b3 :: r3 =>
                         ((b0 - 240) * 262144 + (b1 - 128) * 4096
                          + (b2 - 128) * 64 + (b3 - 128))%N :: utf8_decode r3
                       end
                end
         end
  end.

Definition pystr (s : string) : str := utf8_decode (of_ascii_string s).

Definition SPACE : N := 32%N.
Definition NEWLINE : N := 10%N.
Definition DOT : N := 46%N.
Definition QUOTE : N := 34%N.
Definition BULLET : N := 8226%N.

(** [Py_UNICODE_ISSPACE]: the one whitespace table behind [str.split()],
    [str.strip()], [str.isspace()] and the [\s] class of [re] on [str]
    patterns. *)
Definition isspace (c : char) : bool :=
  ((9 <=? c) && (c <=? 13) || (28 <=? c) && (c <=? 32)
   || (c =? 133) || (c =? 160) || (c =? 5760)
   || (8192 <=? c) && (c <=? 8202)
   || (c =? 8232) || (c =? 8233) || (c =? 8239) || (c =? 8287)
   || (c =? 12288))%N.

Fixpoint drop_while (p : char -> bool) (s : str) : str :=
  match s with
  | [] => []
  | c :: r => if p c then drop_while p r else s
  end.

Fixpoint starts_with (pre s : str) : bool :=
  match pre, s with
  | [], _ => true
  | _ :: _, [] => false
  | a :: pre', b :: s' => (a =? b)%N && starts_with pre' s'
  end.

(** [s.endswith(suf)] *)
Definition ends_with (suf s : str) : bool :=
  starts_with (rev suf) (rev s).

(** [sep.join(l)] *)
Fixpoint join (sep : str) (l : list str) : str :=
  match l with
  | [] => []
  | x :: rest =>
    match rest with
    | [] => x
    | _ :: _ => x ++ sep ++ join sep rest
    end
  end.

(** [l[:n]] for a Python integer [n]: a negative bound counts from the end. *)
Definition slice_to {A} (n : Z) (l : list A) : list A :=
  if 0 <=? n then take (Z.to_nat n) l
  else take (Z.to_nat (Z.of_nat (length l) + n)) l.

(** [s.split()]: the maximal runs of non-whitespace characters. *)
Fixpoint split_ws (s : str) : list str :=
  match s with
  | [] => []
  | c :: r =>
    if isspace c then split_ws r
    else match r with
         | [] => [[c]]
         | c' :: _ =>
           if isspace c' then [c] :: split_ws r
           else match split_ws r with
                | w :: ws => (c :: w) :: ws
                | [] => [[c]]
                end
         end
  end.

(** [re.sub(r"\s+", " ", s)], scanning left to right; [in_run] records that
    the replacement for the current whitespace run was already emitted. *)
Fixpoint sub_ws_runs (in_run : bool) (s : str) : str :=
  match s with
  | [] => []
  | c :: r =>
    if isspace c
    then (if in_run then sub_ws_runs true r else SPACE :: sub_ws_runs true r)
    else c :: sub_ws_runs false r
  end.

Definition re_sub_ws (s : str) : str := sub_ws_runs false s.

Definition ELLIPSIS : str := [DOT; DOT; DOT].

(** ** [enforce_count] *)

Definition enforce_count (txt : str) (count : Z) : str :=
  let txt := re_sub_ws txt in
  let words := split_ws txt in
  if Z.of_nat (length words) <=? count then txt
  else join [SPACE] (slice_to count words) ++ ELLIPSIS.

(** ** Words, whitespace runs and joins *)

Definition nonspace (c : char) : Prop := isspace c = false.

(** A word: a non-empty string without whitespace. *)
Definition is_word (w : str) : Prop := w <> [] /\ Forall nonspace w.

Definition head_space (s : str) : bool :=
  match s with
  | [] => false
  | c :: _ => isspace c
  end.

(** The text ends here or goes on with whitespace. *)
Definition word_end (s : str) : Prop :=
  match s with
  | [] => True
  | c :: _ => isspace c = true
  end.

(** Every whitespace character is a single space between two non-spaces,
    or at either end of the text. *)
Fixpoint normal_ws (s : str) : bool :=
  match s with
  | [] => true
  | c :: r =>
    (if isspace c then (c =? SPACE)%N && negb (head_space r) else true)
    && normal_ws r
  end.

(** The last word takes the suffix [d]; with no word, [d] stands alone. *)
Fixpoint append_last (d : str) (ws : list str) : list str :=
  match ws with
  | [] => [d]
  | w :: rest =>
    match rest with
    | [] => [w ++ d]
    | _ :: _ => w :: append_last d rest
    end
  end.


Fixpoint take_while (p : char -> bool) (s : str) : str :=
  match s with
  | [] => []
  | c :: r => if p c then c :: take_while p r else []
  end.


(** ** [generate_apps]: cleaning and numbering the model's lines *)

(** Python truthiness of a string. *)
Definition truthy (s : str) : bool :=
  match s with
  | [] => false
  | _ :: _ => true
  end.

(** [s.strip()] *)
Definition lstrip (s : str) : str := drop_while isspace s.
Definition rstrip (s : str) : str := rev (drop_while isspace (rev s)).
Definition strip (s : str) : str := rstrip (lstrip s).

(** [s.split(sep)] for a separator of one character. *)
Fixpoint split_char (sep : char) (s : str) : list str :=
  match s with
  | [] => [[]]
  | c :: r =>
    if (c =? sep)%N then [] :: split_char sep r
    else match split_char sep r with
         | w :: ws => (c :: w) :: ws
         | [] => [[c]]
         end
  end.

(** The character class of line 108: ASCII digits, dot, dash, asterisk, the
    bullet U+2022 and whitespace. *)
Definition enum_char (c : char) : bool :=
  ((48 <=? c) && (c <=? 57) || (c =? DOT) || (c =? 45) || (c =? 42)
   || (c =? BULLET))%N || isspace c.

(** [re.sub] of the anchored pattern of line 108 by the empty string: the
    pattern can match only at the start of the line, and greedily. *)
Definition re_sub_enum (l : str) : str := drop_while enum_char l.

(** [f"{i}"] for an integer. *)
Definition format_int (i : Z) : str :=
  of_ascii_string (NilZero.string_of_int (Z.to_int i)).

(** The comprehension of line 108. *)
Definition usable_lines (raw : str) : list str :=
  map (fun l => strip (re_sub_enum l))
      (List.filter (fun l => truthy (strip l)) (split_char NEWLINE raw)).

Definition apps_filler (topic : str) : str :=
  pystr "A simple example of " ++ topic ++ pystr ".".

(** The loop of lines 110-111. *)
#[local] Unset Equations With Funext.
Equations pad_lines (n : Z) (filler : str) (lines : list str) : list str
  by wf (Z.to_nat (n - Z.of_nat (length lines))) lt :=
pad_lines n filler lines with Z_lt_dec (Z.of_nat (length lines)) n => {
  | left _ := pad_lines n filler (lines ++ [filler]) ;
  | right _ := lines }.
Next Obligation. rewrite length_app. simpl. lia. Qed.

(** The f-string of line 117. *)
Definition numbered_line (i : Z) (text : str) : str :=
  format_int i ++ pystr ". " ++ text.

(** The loop of lines 116-117 over [enumerate(lines, start=i)]. *)
Fixpoint number_from (i : Z) (lines : list str) : list str :=
  match lines with
  | [] => []
  | line :: rest => numbered_line i line :: number_from (i + 1) rest
  end.

(** Lines 108-119 of [generate_apps], from the raw reply to the result. *)
Definition generate_apps_post (topic : str) (n : Z) (raw : str) : str :=
  let lines := usable_lines raw in
  let lines := pad_lines n (apps_filler topic) lines in
  let clean_lines := slice_to n lines in
  let numbered := number_from 1 clean_lines in
  join [NEWLINE] numbered.

(** The characters of a formatted integer. *)
Definition digit_or_dash (c : char) : Prop :=
  (48 <= c <= 57)%N \/ c = 45%N.

(** The items kept: the usable lines, then the filler, cut to [n]. *)
Definition apps_items (topic : str) (n : nat) (raw : str) : list str :=
  take n (usable_lines raw
          ++ replicate (n - length (usable_lines raw)) (apps_filler topic)).

(** A topic of two lines. *)
Definition two_line_topic : str := pystr "a" ++ [NEWLINE] ++ pystr "b".


(** ** Documents and placeholder substitution *)

(** [key in s] *)
Fixpoint contains (key s : str) : bool :=
  starts_with key s
  || match s with
     | [] => false
     | _ :: r => contains key r
     end.

(** [s.replace(old, new)] for a non-empty [old]: occurrences are taken from
    the left and do not overlap; [skip] counts the characters of a matched
    occurrence still to be passed over. *)
Fixpoint replace_scan (old new : str) (skip : nat) (s : str) : str :=
  match s with
  | [] => []
  | c :: r =>
    match skip with
    | S k => replace_scan old new k r
    | O =>
      if starts_with old s
      then new ++ replace_scan old new (length old - 1) r
      else c :: replace_scan old new 0 r
    end
  end.

(** [s.replace(old, new)]; an empty [old] matches between all characters. *)
Definition str_replace (old new s : str) : str :=
  match old with
  | [] => new ++ concat (map (fun c => c :: new) s)
  | _ :: _ => replace_scan old new 0 s
  end.

(** What the script sets on a paragraph: typeface, size in points,
    justified alignment, line spacing in tenths. *)
Record format := {
  font_name : str;
  font_size : Z;
  justified : bool;
  line_spacing10 : Z
}.

(** A paragraph (or the content of a table cell) as the script sees it: its
    text and the formatting it carries. *)
Record paragraph := {
  p_text : str;
  p_format : option format
}.

(** A document: the body paragraphs, and the tables as rows of cells. *)
Record document := {
  paragraphs : list paragraph;
  tables : list (list (list paragraph))
}.

(** A character the XML library takes in the text of an element: tab, line
    feed, carriage return or anything from the space on, save the
    surrogates and the two non-characters U+FFFE and U+FFFF. *)
Definition xml_char (c : char) : bool :=
  ((c =? 9) || (c =? 10) || (c =? 13)
   || ((32 <=? c) && negb ((55296 <=? c) && (c <=? 57343))
       && negb (c =? 65534) && negb (c =? 65535)))%N.

(** The character read back for one that was stored: a carriage return is
    stored as a line break, like a line feed, and a line break reads as a
    line feed. *)
Definition stored_char (c : char) : char :=
  if (c =? 13)%N then NEWLINE else c.

(** [p.text = s] and [cell.text = s], followed by what [p.text] and
    [cell.text] read from then on.  The document library raises
    [ValueError] ([None] here) when [s] holds a character that the XML
    library refuses. *)
Definition set_text (s : str) : option str :=
  if forallb xml_char s then Some (map stored_char s) else None.

(** A loop whose body may raise: the results in order, or the failure. *)
Fixpoint for_each {A B} (f : A -> option B) (l : list A) : option (list B) :=
  match l with
  | [] => Some []
  | x :: r =>
    match f x with
    | Some y =>
      match for_each f r with
      | Some ys => Some (y :: ys)
      | None => None
      end
    | None => None
    end
  end.

(** The inner loops of lines 160-162 and 167-169, over the items of the
    dict in its iteration order; the text is assigned, and read again for
    the next item, whenever it holds the key. *)
Fixpoint replace_placeholders (data : list (str * str)) (text : str) : option str :=
  match data with
  | [] => Some text
  | (key, value) :: rest =>
    if contains key text
    then match set_text (str_replace key value text) with
         | Some text' => replace_placeholders rest text'
         | None => None
         end
    else replace_placeholders rest text
  end.

Definition fill_paragraph (data : list (str * str)) (p : paragraph) : option paragraph :=
  match replace_placeholders data (p_text p) with
  | Some text => Some {| p_text := text; p_format := p_format p |}
  | None => None
  end.

(** The loops of lines 159-169: the body paragraphs, then the cells of the
    tables. *)
Definition fill_document (data : list (str * str)) (doc : document) : option document :=
  match for_each (fill_paragraph data) (paragraphs doc) with
  | Some ps =>
    match for_each (for_each (for_each (fill_paragraph data))) (tables doc) with
    | Some ts => Some {| paragraphs := ps; tables := ts |}
    | None => None
    end
  | None => None
  end.

Definition set_format (f : format) (p : paragraph) : paragraph :=
  {| p_text := p_text p; p_format := Some f |}.

Definition body_format : format :=
  {| font_name := pystr "Times New Roman"; font_size := 14;
     justified := true; line_spacing10 := 17 |}.

Definition cell_format : format :=
  {| font_name := pystr "Times New Roman"; font_size := 12;
     justified := true; line_spacing10 := 15 |}.

Definition apply_font_styles (doc : document) : document :=
  {| paragraphs := map (set_format body_format) (paragraphs doc);
     tables := map (map (map (set_format cell_format))) (tables doc) |}.





(** ** The world of the script *)

(** The content of a file or of an in-memory buffer: a word-processor
    package, seen through the time with which the entries of its archive
    are stamped (one reading of the clock stands for them all) and the
    document it encodes, or other bytes. *)
Inductive blob :=
| DocxBytes (stamp : Z) (d : document)
| RawBytes (b : list N).

(** Directories and files, by path. *)
Record filesystem := {
  dirs : gset str;
  files : gmap str blob
}.

(** What the run shows to the user and asks of the model. *)
Inductive event :=
| EModelCall (model prompt : str) (max_tokens : option Z)
| EError (msg : str)
| ESuccess (msg : str)
| EDownload (label : str) (data : blob) (file_name : str).

Inductive exn :=
| ApiError
| FileNotFound (path : str)
| BadPackage (path : str)
| ValueError
| ConversionError.

(** The world: environment variables, the disk, the key given to the model
    client, the trace of events so far and the number of times the clock
    was read.  The four last fields stand for what lies outside the script:
    the model service, which answers a request (or fails) knowing the key
    and everything that happened before; the name chosen for a temporary
    directory; the external converter, which may change the disk as it
    likes and succeeds or fails; the local time at each reading of the
    clock. *)
Record world := {
  env : gmap str str;
  disk : filesystem;
  api_key : option str;
  trace : list event;
  reads : nat;
  service : option str -> list event -> str -> str -> option str;
  mkdtemp : filesystem -> str;
  docx2pdf : filesystem -> str -> str -> bool * filesystem;
  clock : nat -> Z
}.

Definition set_disk (d : filesystem) (w : world) : world :=
  {| env := env w; disk := d; api_key := api_key w; trace := trace w;
     reads := reads w;
     service := service w; mkdtemp := mkdtemp w; docx2pdf := docx2pdf w;
     clock := clock w |}.

Definition set_api_key (k : option str) (w : world) : world :=
  {| env := env w; disk := disk w; api_key := k; trace := trace w;
     reads := reads w;
     service := service w; mkdtemp := mkdtemp w; docx2pdf := docx2pdf w;
     clock := clock w |}.

Definition log (e : event) (w : world) : world :=
  {| env := env w; disk := disk w; api_key := api_key w;
     trace := trace w ++ [e];
     reads := reads w;
     service := service w; mkdtemp := mkdtemp w; docx2pdf := docx2pdf w;
     clock := clock w |}.

(** The time on the clock at its next reading, and the world once it was
    read. *)
Definition now (w : world) : Z := clock w (reads w).

Definition tick (w : world) : world :=
  {| env := env w; disk := disk w; api_key := api_key w; trace := trace w;
     reads := S (reads w);
     service := service w; mkdtemp := mkdtemp w; docx2pdf := docx2pdf w;
     clock := clock w |}.

(** How a step ends: with a value, by [st.stop()], or by an exception. *)
Inductive result (A : Type) :=
| Ok (a : A)
| Stop
| Raise (e : exn).
Arguments Ok {A} a.
Arguments Stop {A}.
Arguments Raise {A} e.

Definition M (A : Type) : Type := world -> result A * world.

Definition ret {A} (a : A) : M A := fun w => (Ok a, w).

Definition bind {A B} (m : M A) (k : A -> M B) : M B :=
  fun w =>
    match m w with
    | (Ok a, w') => k a w'
    | (Stop, w') => (Stop, w')
    | (Raise e, w') => (Raise e, w')
    end.

#[global] Instance M_ret : MRet M := @ret.
#[global] Instance M_bind : MBind M := fun A B k m => bind m k.

Definition raise {A} (e : exn) : M A := fun w => (Raise e, w).

(** [try: body / except: handler], a bare [except]. *)
Definition try_except {A} (body handler : M A) : M A :=
  fun w =>
    match body w with
    | (Ok a, w') => (Ok a, w')
    | (_, w') => handler w'
    end.

Definition st_error (msg : str) : M unit := fun w => (Ok tt, log (EError msg) w).
Definition st_success (msg : str) : M unit := fun w => (Ok tt, log (ESuccess msg) w).
Definition st_stop {A} : M A := fun w => (Stop, w).
Definition st_download_button (label : str) (data : blob) (file_name : str) : M unit :=
  fun w => (Ok tt, log (EDownload label data file_name) w).

(** [time.localtime(time.time())] *)
Definition time_localtime : M Z := fun w => (Ok (now w), tick w).

Definition os_environ_get (name : str) : M (option str) :=
  fun w => (Ok (env w !! name), w).

Definition genai_configure (key : str) : M unit :=
  fun w => (Ok tt, set_api_key (Some key) w).

(** [genai.GenerativeModel(model).generate_content(prompt, ...)]: the text
    of the reply, or an exception. *)
Definition generate_content (model prompt : str) (max_tokens : option Z) : M str :=
  fun w =>
    let w' := log (EModelCall model prompt max_tokens) w in
    match service w (api_key w) (trace w) model prompt with
    | Some text => (Ok text, w')
    | None => (Raise ApiError, w')
    end.

(** ** Configuration *)

Definition TEMPLATE_PATH : str := pystr "vam.docx".

Definition PREFERRED_MODELS : list str :=
  [ pystr "gemini-2.0-flash"; pystr "gemini-2.0-pro";
    pystr "gemini-1.5-flash"; pystr "gemini-1.5-pro" ].

Inductive words_key :=
| experiences | feelings | insights | conclusion | applications_count.

Definition WORDS (k : words_key) : Z :=
  match k with
  | experiences => 150
  | feelings => 150
  | insights => 300
  | conclusion => 100
  | applications_count => 5
  end.

(** ** [init_genai] *)

Definition no_model_msg : str := pystr "No working Gemini model available.".
Definition no_key_msg : str := pystr "GOOGLE_API_KEY not found".
Definition no_topic_msg : str := pystr "Please enter a topic.".

Definition PING : str := pystr "ping".

(** The loop of lines 45-54 over the remaining candidates. *)
Fixpoint try_models (ms : list str) : M str :=
  match ms with
  | [] => st_error no_model_msg ;; st_stop
  | m :: rest =>
    try_except (generate_content m PING None ;; ret m) (try_models rest)
  end.

Definition GOOGLE_API_KEY : str := pystr "GOOGLE_API_KEY".

Definition init_genai : M str :=
  key ← os_environ_get GOOGLE_API_KEY;
  match key with
  | Some (c :: k) => genai_configure (c :: k) ;; try_models PREFERRED_MODELS
  | _ => st_error no_key_msg ;; st_stop
  end.

(** ** [call_gemini], [generate_section], [generate_apps] *)

Definition call_gemini (prompt model : str) (max_tokens : Z) : M str :=
  text ← generate_content model prompt (Some max_tokens);
  ret (strip text).

(** A triple-quoted literal: every line ends with a line break. *)
Definition unlines (ls : list str) : str :=
  concat (map (fun l => l ++ [NEWLINE]) ls).

Definition section_prompt (topic : str) (nwords : Z) : str :=
  unlines
    [ [];
      pystr "Write a simple and easy-to-understand reflective paragraph of about "
        ++ format_int nwords ++ pystr " words.";
      [];
      pystr "The paragraph MUST start exactly like this:";
      [QUOTE] ++ pystr "In this module, I have learned that " ++ topic
        ++ pystr "..." ++ [QUOTE];
      [];
      pystr "Writing rules:";
      pystr "• Use simple English only.";
      pystr "• No complex or academic words.";
      pystr "• A single clear paragraph.";
      pystr "• Make it personal and human-like.";
      pystr "• Describe real feelings about what was learned.";
      pystr "• No bullet points." ].

Definition generate_section (model title topic : str) (nwords : Z) : M str :=
  raw ← call_gemini (section_prompt topic nwords) model 900;
  ret (enforce_count raw nwords).

Definition apps_prompt (topic : str) (n : Z) : str :=
  unlines
    [ [];
      pystr "Give " ++ format_int n ++ pystr " simple real-life applications of "
        ++ topic ++ pystr ".";
      pystr "Rules:";
      pystr "• One short sentence each.";
      pystr "• Use simple English.";
      pystr "• No bullets, no symbols.";
      pystr "• No asterisks (*).";
      pystr "• Output as plain lines separated by newlines." ].

Definition generate_apps (model topic : str) (n : Z) : M str :=
  raw ← call_gemini (apps_prompt topic n) model 900;
  ret (generate_apps_post topic n raw).

(** ** [fill_template] *)

(** [os.path.exists] *)
Definition path_exists (p : str) (fs : filesystem) : bool :=
  bool_decide (is_Some (files fs !! p)) || bool_decide (p ∈ dirs fs).

Definition os_path_exists (p : str) : M bool :=
  fun w => (Ok (path_exists p (disk w)), w).

(** [Document(path)]: the document of a package on disk. *)
Definition Document (p : str) : M document :=
  fun w =>
    match files (disk w) !! p with
    | Some (DocxBytes _ d) => (Ok d, w)
    | Some (RawBytes _) => (Raise (BadPackage p), w)
    | None => (Raise (FileNotFound p), w)
    end.

Definition template_missing_msg : str :=
  pystr "Template not found: " ++ TEMPLATE_PATH.

(** [doc.save(out)] into a fresh buffer, lines 173-176: the package is
    written as an archive whose entries carry the local time of the
    writing. *)
Definition doc_save (doc : document) : M blob :=
  stamp ← time_localtime;
  ret (DocxBytes stamp doc).

Definition fill_template (data : list (str * str)) : M blob :=
  found ← os_path_exists TEMPLATE_PATH;
  if negb found
  then st_error template_missing_msg ;; st_stop
  else
    doc ← Document TEMPLATE_PATH;
    match fill_document data doc with
    | Some filled => doc_save (apply_font_styles filled)
    | None => raise ValueError
    end.

(** ** [convert_to_pdf] *)

(** [os.path.join(d, name)] for a relative [name]. *)
Definition path_join (d name : str) : str := d ++ pystr "/" ++ name.

(** [p] is the directory [d] or lies below it. *)
Definition under (d p : str) : bool :=
  bool_decide (p = d) || starts_with (d ++ pystr "/") p.

Definition mkdir (d : str) (fs : filesystem) : filesystem :=
  {| dirs := {[d]} ∪ dirs fs; files := files fs |}.

(** [shutil.rmtree(d)] *)
Definition rmtree (d : str) (fs : filesystem) : filesystem :=
  {| dirs := filter (fun p => under d p = false) (dirs fs);
     files := filter (fun kv => under d (fst kv) = false) (files fs) |}.

(** [with tempfile.TemporaryDirectory() as tmpdir: body]: the directory is
    made on entry and removed with all it holds when the block is left,
    however it is left. *)
Definition with_TemporaryDirectory {A} (body : str -> M A) : M A :=
  fun w =>
    let tmpdir := mkdtemp w (disk w) in
    let (r, w') := body tmpdir (set_disk (mkdir tmpdir (disk w)) w) in
    (r, set_disk (rmtree tmpdir (disk w')) w').

Definition write_file (p : str) (data : blob) : M unit :=
  fun w =>
    (Ok tt, set_disk {| dirs := dirs (disk w);
                        files := <[p := data]> (files (disk w)) |} w).

Definition read_file (p : str) : M blob :=
  fun w =>
    match files (disk w) !! p with
    | Some b => (Ok b, w)
    | None => (Raise (FileNotFound p), w)
    end.

(** [docx2pdf.convert(src, dst)] *)
Definition convert (src dst : str) : M unit :=
  fun w =>
    let (ok, fs) := docx2pdf w (disk w) src dst in
    (if ok then Ok tt else Raise ConversionError, set_disk fs w).

Definition convert_to_pdf (docx_bytes : blob) : M blob :=
  with_TemporaryDirectory (fun tmpdir =>
    let docx_path := path_join tmpdir (pystr "temp.docx") in
    let pdf_path := path_join tmpdir (pystr "temp.pdf") in
    write_file docx_path docx_bytes ;;
    convert docx_path pdf_path ;;
    read_file pdf_path).

(** ** The form and the [Generate RJ] button *)

Record form := {
  assignment_name : str;
  student_name : str;
  rollno : str;
  class_section : str;
  level : str;
  year_term : str;
  journal_title : str;
  topic : str;
  subject_name : str
}.

(** The dict [final] of lines 234-248, in insertion order. *)
Definition final_data (f : form) (exp feel ins apps conc : str) : list (str * str) :=
  [ (pystr "{{assignment_name}}", assignment_name f);
    (pystr "{{student_name}}", student_name f);
    (pystr "{{rollno}}", rollno f);
    (pystr "{{class_section}}", class_section f);
    (pystr "{{level}}", level f);
    (pystr "{{year_term}}", year_term f);
    (pystr "{{subject_name}}", subject_name f);
    (pystr "{{title}}", journal_title f);
    (pystr "{{experiences}}", exp);
    (pystr "{{feelings}}", feel);
    (pystr "{{insights}}", ins);
    (pystr "{{applications}}", apps);
    (pystr "{{conclusion}}", conc) ].

(** The body of [if st.button("Generate RJ"):], lines 221-256. *)
Definition on_generate (f : form) : M unit :=
  (if negb (truthy (topic f))
   then st_error no_topic_msg ;; st_stop
   else ret tt) ;;
  model ← init_genai;
  st_success (pystr "Using model: " ++ model) ;;
  exp ← generate_section model (pystr "Experiences") (topic f) (WORDS experiences);
  feel ← generate_section model (pystr "Feelings") (topic f) (WORDS feelings);
  ins ← generate_section model (pystr "Insights") (topic f) (WORDS insights);
  conc ← generate_section model (pystr "Conclusion") (topic f) (WORDS conclusion);
  apps ← generate_apps model (topic f) 5;
  docx_output ← fill_template (final_data f exp feel ins apps conc);
  st_download_button (pystr "Download DOCX") docx_output (pystr "Journal_Output.docx") ;;
  pdf_bytes ← convert_to_pdf docx_output;
  st_download_button (pystr "Download PDF") pdf_bytes (pystr "Journal_Output.pdf").

(** ** Vocabulary of the statements *)

(** The world after further events. *)
Definition logs (evs : list event) (w : world) : world :=
  {| env := env w; disk := disk w; api_key := api_key w;
     trace := trace w ++ evs;
     reads := reads w;
     service := service w; mkdtemp := mkdtemp w; docx2pdf := docx2pdf w;
     clock := clock w |}.

Definition is_model_call (e : event) : bool :=
  match e with
  | EModelCall _ _ _ => true
  | _ => false
  end.

Definition is_download (e : event) : bool :=
  match e with
  | EDownload _ _ _ => true
  | _ => false
  end.

(** The test requests sent to the candidates [ms], in order. *)
Definition probe_trace (ms : list str) : list event :=
  map (fun m => EModelCall m PING None) ms.

(** No credential: the variable is unset, or set to the empty string, which
    line 39 treats alike and reports as not found. *)
Definition credential_absent (w : world) : Prop :=
  env w !! GOOGLE_API_KEY = None \/ env w !! GOOGLE_API_KEY = Some [].

(** The service's answer to the test request of candidate [i], sent with
    the key of the environment after the candidates before it were tried. *)
Definition probe_reply (w : world) (i : nat) (m : str) : option str :=
  service w (env w !! GOOGLE_API_KEY)
    (trace w ++ probe_trace (take i PREFERRED_MODELS)) m PING.

Definition all_probes_fail (w : world) : Prop :=
  forall i m, PREFERRED_MODELS !! i = Some m -> probe_reply w i m = None.

Definition first_working (w : world) (i : nat) (m : str) : Prop :=
  PREFERRED_MODELS !! i = Some m
  /\ is_Some (probe_reply w i m)
  /\ forall j mj, (j < i)%nat -> PREFERRED_MODELS !! j = Some mj ->
                  probe_reply w j mj = None.

(** A run with a key, a service that always answers, and no template. *)
Definition sample_world : world :=
  {| env := {[ GOOGLE_API_KEY := pystr "secret" ]};
     disk := {| dirs := ∅; files := ∅ |};
     api_key := None;
     trace := [];
     reads := 0;
     service := fun _ _ _ _ => Some (pystr "In this module, I have learned a lot.");
     mkdtemp := fun _ => pystr "/tmp/tmpdir0";
     docx2pdf := fun fs _ _ => (false, fs);
     clock := fun n => 2 * Z.of_nat n |}.

Definition sample_form : form :=
  {| assignment_name := pystr "RJ 1"; student_name := pystr "A. Student";
     rollno := pystr "42"; class_section := pystr "B"; level := pystr "UG";
     year_term := pystr "2025"; journal_title := pystr "Week 1";
     topic := pystr "recursion"; subject_name := pystr "Programming" |}.

(** A document of one paragraph. *)
Definition one_paragraph (text : str) (fmt : option format) : document :=
  {| paragraphs := [ {| p_text := text; p_format := fmt |} ]; tables := [] |}.

(** A template of one paragraph, and one mapping written in two orders. *)
Definition order_template : document := one_paragraph (pystr "Dear {{a}}") None.







(** ** Further vocabulary *)

(** The last character is whitespace. *)
Fixpoint last_space (s : str) : bool :=
  match s with
  | [] => false
  | c :: r =>
    match r with
    | [] => isspace c
    | _ :: _ => last_space r
    end
  end.

(** The prompts of the five generation requests of lines 228-232, in the
    order in which they are sent, and the requests themselves. *)
Definition generation_prompts (tp : str) : list str :=
  [ section_prompt tp (WORDS experiences);
    section_prompt tp (WORDS feelings);
    section_prompt tp (WORDS insights);
    section_prompt tp (WORDS conclusion);
    apps_prompt tp 5 ].

Definition generation_requests (model tp : str) : list event :=
  map (fun p => EModelCall model p (Some 900)) (generation_prompts tp).

(** The dict of line 234 for the five replies of the model, in the order
    of the requests. *)
Definition generated_data (f : form) (r1 r2 r3 r4 r5 : str) : list (str * str) :=
  final_data f
    (enforce_count (strip r1) (WORDS experiences))
    (enforce_count (strip r2) (WORDS feelings))
    (enforce_count (strip r3) (WORDS insights))
    (generate_apps_post (topic f) 5 (strip r5))
    (enforce_count (strip r4) (WORDS conclusion)).

(** The buffer of line 250 for a template [doc], the five replies of the
    model and the time at which it is saved; none when a value cannot be
    set into the document. *)
Definition filled_docx (f : form) (stamp : Z) (doc : document)
    (r1 r2 r3 r4 r5 : str) : option blob :=
  match fill_document (generated_data f r1 r2 r3 r4 r5) doc with
  | Some filled => Some (DocxBytes stamp (apply_font_styles filled))
  | None => None
  end.

Definition is_error (e : event) : bool :=
  match e with
  | EError _ => true
  | _ => false
  end.

Definition docx_download (data : blob) : event :=
  EDownload (pystr "Download DOCX") data (pystr "Journal_Output.docx").

Definition pdf_download (data : blob) : event :=
  EDownload (pystr "Download PDF") data (pystr "Journal_Output.pdf").

(** The temporary directory of [convert_to_pdf] in a world, the two paths
    in it, the disk handed to the converter and what the converter answers. *)
Definition conversion_dir (w : world) : str := mkdtemp w (disk w).

Definition conversion_docx_path (w : world) : str :=
  path_join (conversion_dir w) (pystr "temp.docx").

Definition conversion_pdf_path (w : world) : str :=
  path_join (conversion_dir w) (pystr "temp.pdf").

Definition conversion_input (w : world) (docx : blob) : filesystem :=
  {| dirs := {[conversion_dir w]} ∪ dirs (disk w);
     files := <[conversion_docx_path w := docx]> (files (disk w)) |}.

Definition conversion (w : world) (docx : blob) : bool * filesystem :=
  docx2pdf w (conversion_input w docx)
    (conversion_docx_path w) (conversion_pdf_path w).

(** The ways in which a run of the button ends: the result, the events of
    the run and the disk it leaves, with what led there. *)
Inductive run_ends (f : form) (w : world) :
  result unit -> list event -> filesystem -> Prop :=
| ends_no_topic :
    topic f = [] ->
    run_ends f w Stop [EError no_topic_msg] (disk w)
| ends_no_key :
    topic f <> [] -> credential_absent w ->
    run_ends f w Stop [EError no_key_msg] (disk w)
| ends_no_model :
    topic f <> [] -> ~ credential_absent w -> all_probes_fail w ->
    run_ends f w Stop
      (probe_trace PREFERRED_MODELS ++ [EError no_model_msg]) (disk w)
| ends_generation_fails i m j :
    topic f <> [] -> ~ credential_absent w -> first_working w i m ->
    (j < 5)%nat ->
    (exists key history prompt, service w key history m prompt = None) ->
    run_ends f w (Raise ApiError)
      (probe_trace (take (S i) PREFERRED_MODELS)
       ++ ESuccess (pystr "Using model: " ++ m)
       :: take (S j) (generation_requests m (topic f)))
      (disk w)
| ends_no_template i m :
    topic f <> [] -> ~ credential_absent w -> first_working w i m ->
    path_exists TEMPLATE_PATH (disk w) = false ->
    run_ends f w Stop
      (probe_trace (take (S i) PREFERRED_MODELS)
       ++ ESuccess (pystr "Using model: " ++ m)
       :: generation_requests m (topic f) ++ [EError template_missing_msg])
      (disk w)
| ends_bad_template i m e :
    topic f <> [] -> ~ credential_absent w -> first_working w i m ->
    path_exists TEMPLATE_PATH (disk w) = true ->
    (forall stamp doc, files (disk w) !! TEMPLATE_PATH <> Some (DocxBytes stamp doc)) ->
    e = BadPackage TEMPLATE_PATH \/ e = FileNotFound TEMPLATE_PATH ->
    run_ends f w (Raise e)
      (probe_trace (take (S i) PREFERRED_MODELS)
       ++ ESuccess (pystr "Using model: " ++ m)
       :: generation_requests m (topic f))
      (disk w)
| ends_bad_value i m stamp doc r1 r2 r3 r4 r5 :
    topic f <> [] -> ~ credential_absent w -> first_working w i m ->
    files (disk w) !! TEMPLATE_PATH = Some (DocxBytes stamp doc) ->
    filled_docx f (now w) doc r1 r2 r3 r4 r5 = None ->
    run_ends f w (Raise ValueError)
      (probe_trace (take (S i) PREFERRED_MODELS)
       ++ ESuccess (pystr "Using model: " ++ m)
       :: generation_requests m (topic f))
      (disk w)
| ends_conversion_fails i m stamp doc r1 r2 r3 r4 r5 docx e :
    topic f <> [] -> ~ credential_absent w -> first_working w i m ->
    files (disk w) !! TEMPLATE_PATH = Some (DocxBytes stamp doc) ->
    filled_docx f (now w) doc r1 r2 r3 r4 r5 = Some docx ->
    (fst (conversion w docx) = false /\ e = ConversionError
     \/ fst (conversion w docx) = true
        /\ files (snd (conversion w docx)) !! conversion_pdf_path w = None
        /\ e = FileNotFound (conversion_pdf_path w)) ->
    run_ends f w (Raise e)
      (probe_trace (take (S i) PREFERRED_MODELS)
       ++ ESuccess (pystr "Using model: " ++ m)
       :: generation_requests m (topic f) ++ [docx_download docx])
      (rmtree (conversion_dir w) (snd (conversion w docx)))
| ends_done i m stamp doc r1 r2 r3 r4 r5 docx pdf :
    topic f <> [] -> ~ credential_absent w -> first_working w i m ->
    files (disk w) !! TEMPLATE_PATH = Some (DocxBytes stamp doc) ->
    filled_docx f (now w) doc r1 r2 r3 r4 r5 = Some docx ->
    fst (conversion w docx) = true ->
    files (snd (conversion w docx)) !! conversion_pdf_path w = Some pdf ->
    run_ends f w (Ok tt)
      (probe_trace (take (S i) PREFERRED_MODELS)
       ++ ESuccess (pystr "Using model: " ++ m)
       :: generation_requests m (topic f)
       ++ [docx_download docx; pdf_download pdf])
      (rmtree (conversion_dir w) (snd (conversion w docx))).


Definition working_world : world :=
  {| env := env sample_world;
     disk := {| dirs := ∅; files := {[ TEMPLATE_PATH := DocxBytes 0 order_template ]} |};
     api_key := None;
     trace := [];
     reads := 0;
     service := service sample_world;
     mkdtemp := mkdtemp sample_world;
     docx2pdf := fun fs _ dst =>
       (true, {| dirs := dirs fs;
                 files := <[ dst := RawBytes [37; 80; 68; 70]%N ]> (files fs) |});
     clock := clock sample_world |}.


(** A template with a placeholder for a generated text, and a world whose
    service puts a backspace character into every reply. *)
Definition section_template : document :=
  {| paragraphs := [ {| p_text := pystr "{{experiences}}"; p_format := None |} ];
     tables := [] |}.

Definition backspace_world : world :=
  {| env := env sample_world;
     disk := {| dirs := ∅;
                files := {[ TEMPLATE_PATH := DocxBytes 0 section_template ]} |};
     api_key := None;
     trace := [];
     reads := 0;
     service := fun _ _ _ _ => Some [97; 8; 98]%N;
     mkdtemp := mkdtemp sample_world;
     docx2pdf := docx2pdf working_world;
     clock := clock sample_world |}.

(** * Properties *)


Lemma take_drop_while p s : take_while p s ++ drop_while p s = s.
Proof. induction s as [|c r IH]; simpl; [done|]. destruct (p c); simpl; congruence. Qed.

Lemma take_while_Forall p s : Forall (fun c => p c = true) (take_while p s).
Proof.
  induction s as [|c r IH]; simpl; [constructor|].
  destruct (p c) eqn:E; constructor; assumption.
Qed.

Lemma drop_while_head s : head_space (drop_while isspace s) = false.
Proof.
  induction s as [|c r IH]; simpl; [done|].
  destruct (isspace c) eqn:E; simpl; auto.
Qed.


Lemma drop_while_elem p s c : c ∈ drop_while p s -> c ∈ s.
Proof.
  induction s as [|a r IH]; simpl; [done|].
  destruct (p a); [|done]. intros H. right. auto.
Qed.

Lemma starts_with_app p s : starts_with p (p ++ s) = true.
Proof.
  induction p as [|a p IH]; simpl; [done|].
  rewrite N.eqb_refl. exact IH.
Qed.

Lemma ends_with_app d s : ends_with d (s ++ d) = true.
Proof. unfold ends_with. rewrite rev_app_distr. apply starts_with_app. Qed.

(** *** [split_ws] *)

Lemma split_ws_space c s : isspace c = true -> split_ws (c :: s) = split_ws s.
Proof. intros H. simpl. by rewrite H. Qed.

Lemma split_ws_word_app w s :
  is_word w -> word_end s -> split_ws (w ++ s) = w :: split_ws s.
Proof.
  intros [Hne Hw] Hs. induction Hw as [|c w Hc Hw IH]; [done|].
  destruct w as [|c2 w].
  - simpl. rewrite Hc. destruct s as [|c' s']; [done|].
    simpl in Hs. by rewrite Hs.
  - assert (Hc2 : isspace c2 = false) by (by inversion Hw).
    specialize (IH ltac:(done)).
    change ((c :: c2 :: w) ++ s) with (c :: (c2 :: w) ++ s).
    change (split_ws (c :: (c2 :: w) ++ s)) with
      (if isspace c then split_ws ((c2 :: w) ++ s)
       else if isspace c2 then [c] :: split_ws ((c2 :: w) ++ s)
       else match split_ws ((c2 :: w) ++ s) with
            | w0 :: ws => (c :: w0) :: ws
            | [] => [[c]]
            end).
    by rewrite Hc, Hc2, IH.
Qed.

Lemma split_ws_words s : Forall is_word (split_ws s).
Proof.
  induction s as [|c r IH]; [constructor|].
  simpl. destruct (isspace c) eqn:Hc; [exact IH|].
  destruct r as [|c' r'].
  - repeat constructor; [done|exact Hc].
  - destruct (isspace c') eqn:Hc'.
    + constructor; [|exact IH]. repeat constructor; [done|exact Hc].
    + destruct (split_ws (c' :: r')) as [|w ws].
      * repeat constructor; [done|exact Hc].
      * inversion IH as [|? ? [_ Hw] Hws]; subst.
        constructor; [|exact Hws]. split; [done|]. by constructor.
Qed.

Lemma join_cons2 sep x y rest :
  join sep (x :: y :: rest) = x ++ sep ++ join sep (y :: rest).
Proof. reflexivity. Qed.

Lemma split_ws_join ws :
  Forall is_word ws -> split_ws (join [SPACE] ws) = ws.
Proof.
  induction 1 as [|x rest Hx Hrest IH]; [done|].
  destruct rest as [|y rest].
  - simpl. rewrite <- (app_nil_r x) at 1.
    by rewrite split_ws_word_app.
  - rewrite join_cons2. rewrite split_ws_word_app; [|done|done].
    f_equal. simpl app. rewrite split_ws_space by done. exact IH.
Qed.

Lemma split_ws_sub b s : split_ws (sub_ws_runs b s) = split_ws s.
Proof.
  revert b. induction s as [|c r IH]; intros b; [done|].
  simpl sub_ws_runs. destruct (isspace c) eqn:Hc.
  - rewrite (split_ws_space c r Hc). destruct b; [apply IH|].
    rewrite split_ws_space by done. apply IH.
  - specialize (IH false). simpl. rewrite Hc.
    destruct r as [|c' r']; [done|].
    simpl sub_ws_runs in *. destruct (isspace c') eqn:Hc'.
    + change (isspace SPACE) with true. cbv iota. by rewrite IH.
    + rewrite Hc'. by rewrite IH.
Qed.

(** *** [re.sub] on whitespace runs *)





Lemma sub_ws_runs_normal b s :
  normal_ws (sub_ws_runs b s) = true
  /\ (b = true -> head_space (sub_ws_runs b s) = false).
Proof.
  revert b. induction s as [|c r IH]; intros b; [done|].
  simpl. destruct (isspace c) eqn:Hc.
  - destruct (IH true) as [Hn Hh]. destruct b; [done|].
    split; [|done]. simpl. change (isspace SPACE) with true. cbv iota.
    rewrite Hh by done. by rewrite Hn.
  - destruct (IH false) as [Hn _]. split; [|done]. simpl. by rewrite Hc.
Qed.

Lemma sub_ws_runs_fixed b s :
  normal_ws s = true -> (b = true -> head_space s = false) ->
  sub_ws_runs b s = s.
Proof.
  revert b. induction s as [|c r IH]; intros b Hn Hh; [done|].
  simpl in *. destruct (isspace c) eqn:Hc.
  - destruct b; [by specialize (Hh eq_refl)|].
    apply andb_prop in Hn as [Hn1 Hn2]. apply andb_prop in Hn1 as [Hsp Hhd].
    apply N.eqb_eq in Hsp. subst c. f_equal. apply IH; [done|].
    intros _. by apply negb_true_iff.
  - f_equal. apply IH; [done|done].
Qed.

Lemma re_sub_ws_fixed s : normal_ws s = true -> re_sub_ws s = s.
Proof. intros H. by apply sub_ws_runs_fixed. Qed.

Lemma re_sub_ws_normal s : normal_ws (re_sub_ws s) = true.
Proof. apply sub_ws_runs_normal. Qed.

Lemma re_sub_ws_idem s : re_sub_ws (re_sub_ws s) = re_sub_ws s.
Proof. apply re_sub_ws_fixed, re_sub_ws_normal. Qed.

Lemma normal_ws_word_app w s :
  Forall nonspace w -> normal_ws (w ++ s) = normal_ws s.
Proof.
  induction 1 as [|c w Hc Hw IH]; [done|].
  simpl. rewrite Hc. exact IH.
Qed.

Lemma head_space_word_app w s : is_word w -> head_space (w ++ s) = false.
Proof. intros [Hne Hw]. destruct Hw; [done|]. done. Qed.

Lemma normal_ws_space s :
  normal_ws (SPACE :: s) = negb (head_space s) && normal_ws s.
Proof. reflexivity. Qed.

Lemma normal_ws_join ws : Forall is_word ws -> normal_ws (join [SPACE] ws) = true.
Proof.
  induction 1 as [|x rest Hx Hrest IH]; [done|].
  destruct rest as [|y rest].
  - simpl. rewrite <- (app_nil_r x). rewrite normal_ws_word_app; [done|apply Hx].
  - rewrite join_cons2. rewrite normal_ws_word_app by apply Hx.
    change ([SPACE] ++ join [SPACE] (y :: rest))
      with (SPACE :: join [SPACE] (y :: rest)).
    rewrite normal_ws_space, IH, andb_true_r. apply negb_true_iff.
    inversion Hrest as [|? ? Hy _]; subst.
    destruct rest as [|z rest].
    + simpl join. rewrite <- (app_nil_r y).
      by rewrite (head_space_word_app y []).
    + rewrite join_cons2. by rewrite head_space_word_app.
Qed.

(** *** The appended ellipsis *)

Lemma join_append_last sep d ws :
  join sep ws ++ d = join sep (append_last d ws).
Proof.
  induction ws as [|w rest IH]; [by rewrite app_nil_l|].
  destruct rest as [|y rest]; [done|].
  rewrite join_cons2.
  change (append_last d (w :: y :: rest)) with (w :: append_last d (y :: rest)).
  destruct (append_last d (y :: rest)) as [|z zs] eqn:E.
  - destruct rest; discriminate E.
  - rewrite join_cons2. rewrite <- IH. by rewrite <- !app_assoc.
Qed.

Lemma append_last_length d (ws : list str) :
  length (append_last d ws) = Nat.max 1 (length ws).
Proof.
  induction ws as [|w rest IH]; [done|].
  destruct rest as [|y rest]; [done|].
  change (append_last d (w :: y :: rest)) with (w :: append_last d (y :: rest)).
  simpl length in *. lia.
Qed.

Lemma append_last_words d ws :
  is_word d -> Forall is_word ws -> Forall is_word (append_last d ws).
Proof.
  intros Hd. induction 1 as [|w rest Hw Hrest IH];
    [simpl; constructor; [exact Hd|constructor]|].
  destruct rest as [|y rest].
  - repeat constructor.
    + destruct Hw as [Hne _]. by destruct w.
    + apply Forall_app. split; [apply Hw|apply Hd].
  - change (append_last d (w :: y :: rest)) with (w :: append_last d (y :: rest)).
    by constructor.
Qed.

Lemma ELLIPSIS_word : is_word ELLIPSIS.
Proof. split; [done|]. by repeat constructor. Qed.

Lemma slice_to_nonneg {A} n (l : list A) :
  0 <= n -> slice_to n l = take (Z.to_nat n) l.
Proof. intros H. unfold slice_to. destruct (Z.leb_spec 0 n); [done|lia]. Qed.

Lemma slice_to_words n ws : Forall is_word ws -> Forall is_word (slice_to n ws).
Proof. intros H. unfold slice_to. destruct (0 <=? n); by apply Forall_take. Qed.


(** ** [enforce_count] *)

Example enforce_count_truncates :
  enforce_count (pystr "one  two three four") 2 = pystr "one two...".
Proof. reflexivity. Qed.

Example enforce_count_keeps :
  enforce_count (pystr " one	two ") 2 = pystr " one two ".
Proof. reflexivity. Qed.

Example bullet_literal : pystr "•" = [BULLET].
Proof. reflexivity. Qed.

Lemma split_ws_re_sub t : split_ws (re_sub_ws t) = split_ws t.
Proof. apply split_ws_sub. Qed.

Lemma enforce_count_under t n :
  Z.of_nat (length (split_ws t)) <= n -> enforce_count t n = re_sub_ws t.
Proof.
  intros H. unfold enforce_count, re_sub_ws. rewrite split_ws_sub.
  destruct (Z.leb_spec (Z.of_nat (length (split_ws t))) n); [done|lia].
Qed.

Lemma enforce_count_over t n :
  n < Z.of_nat (length (split_ws t)) ->
  enforce_count t n = join [SPACE] (slice_to n (split_ws t)) ++ ELLIPSIS.
Proof.
  intros H. unfold enforce_count, re_sub_ws. rewrite split_ws_sub.
  destruct (Z.leb_spec (Z.of_nat (length (split_ws t))) n); [lia|done].
Qed.

(** The words of a truncated result: the kept words, the last one carrying
    the ellipsis. *)
Lemma split_ws_truncated ws :
  Forall is_word ws ->
  split_ws (join [SPACE] ws ++ ELLIPSIS) = append_last ELLIPSIS ws.
Proof.
  intros H. rewrite join_append_last. apply split_ws_join.
  apply append_last_words; [apply ELLIPSIS_word|done].
Qed.

(** Whatever the count, the result is in whitespace-normal form. *)
Lemma enforce_count_normal t n : normal_ws (enforce_count t n) = true.
Proof.
  destruct (Z.le_gt_cases (Z.of_nat (length (split_ws t))) n) as [H|H].
  - rewrite enforce_count_under by done. apply re_sub_ws_normal.
  - rewrite enforce_count_over by done. rewrite join_append_last.
    apply normal_ws_join, append_last_words; [apply ELLIPSIS_word|].
    apply slice_to_words, split_ws_words.
Qed.

(** The words of the result, in the two cases of line 69. *)
Lemma enforce_count_words_under t n :
  Z.of_nat (length (split_ws t)) <= n ->
  split_ws (enforce_count t n) = split_ws t.
Proof. intros H. rewrite enforce_count_under by done. apply split_ws_re_sub. Qed.

Lemma enforce_count_words_over t n :
  0 <= n -> n < Z.of_nat (length (split_ws t)) ->
  split_ws (enforce_count t n)
  = append_last ELLIPSIS (take (Z.to_nat n) (split_ws t)).
Proof.
  intros Hn H. rewrite enforce_count_over by done.
  rewrite slice_to_nonneg by done.
  apply split_ws_truncated, Forall_take, split_ws_words.
Qed.



(** C3, as the claim has it, fails twice.  A text that already ends with
    three dots keeps them although nothing was cut; and with a budget of
    zero a cut result is the three dots alone, which [split] counts as one
    word. *)
Lemma enforce_count_ellipsis_counterexample :
  ~ (Z.of_nat (length (split_ws (enforce_count (pystr "wait...") 5))) <= 5
     /\ (ends_with ELLIPSIS (enforce_count (pystr "wait...") 5) = true
         <-> 5 < Z.of_nat (length (split_ws (pystr "wait...")))))
  /\ ~ (Z.of_nat (length (split_ws (enforce_count (pystr "wait") 0))) <= 0).
Proof.
  split.
  - intros [_ [H _]]. specialize (H eq_refl). vm_compute in H. discriminate H.
  - vm_compute. intros H. apply H. reflexivity.
Qed.

(** C3, amended.  For every budget [n >= 0] and text [t]: the result has at
    most [max n 1] words, so at most [n] when [n >= 1]; if [t] has more than
    [n] words the result ends with three dots, and its words are the first
    [n] words of [t], the last of them carrying the dots; if [t] has at most
    [n] words the result is the whitespace-normalized text, with the words of
    [t] and nothing appended. *)
Theorem enforce_count_budget (t : str) (n : Z) :
  0 <= n ->
  Z.of_nat (length (split_ws (enforce_count t n))) <= Z.max n 1
  /\ (n < Z.of_nat (length (split_ws t)) ->
      ends_with ELLIPSIS (enforce_count t n) = true
      /\ split_ws (enforce_count t n)
         = append_last ELLIPSIS (take (Z.to_nat n) (split_ws t)))
  /\ (Z.of_nat (length (split_ws t)) <= n ->
      enforce_count t n = re_sub_ws t
      /\ split_ws (enforce_count t n) = split_ws t).
Proof.
  intros Hn.
  assert (Hover : n < Z.of_nat (length (split_ws t)) ->
                  ends_with ELLIPSIS (enforce_count t n) = true
                  /\ split_ws (enforce_count t n)
                     = append_last ELLIPSIS (take (Z.to_nat n) (split_ws t))).
  { intros H. split; [|by apply enforce_count_words_over].
    rewrite enforce_count_over by done. apply ends_with_app. }
  assert (Hunder : Z.of_nat (length (split_ws t)) <= n ->
                   enforce_count t n = re_sub_ws t
                   /\ split_ws (enforce_count t n) = split_ws t).
  { intros H. rewrite enforce_count_under by done.
    split; [done|apply split_ws_sub]. }
  split; [|by split].
  destruct (Z.le_gt_cases (Z.of_nat (length (split_ws t))) n) as [H|H].
  - destruct (Hunder H) as [_ ->]. lia.
  - destruct (Hover ltac:(lia)) as [_ ->].
    rewrite append_last_length, length_take. lia.
Qed.

Lemma enforce_count_budget_witness :
  0 <= 2
  /\ Z.of_nat (length (split_ws (enforce_count (pystr "a b  c d") 2))) <= Z.max 2 1.
Proof.
  split; [lia|]. apply (enforce_count_budget (pystr "a b  c d") 2). lia.
Defined.

(** C8, as the claim has it, fails: a text under the target that holds a
    run of two spaces comes back with one. *)
Lemma enforce_count_identity_counterexample :
  Z.of_nat (length (split_ws (pystr "a  b"))) <= 5
  /\ enforce_count (pystr "a  b") 5 <> pystr "a  b".
Proof. split; [vm_compute; discriminate|]. vm_compute. discriminate. Qed.

(** C8, amended.  A text in whitespace-normal form with at most [n] words
    is returned as it is; every result of the normalizer is in that form; so
    for a target [n >= 0] normalizing twice is normalizing once. *)
Theorem enforce_count_idempotent (t : str) (n : Z) :
  0 <= n ->
  (forall x, normal_ws x = true -> Z.of_nat (length (split_ws x)) <= n ->
             enforce_count x n = x)
  /\ (forall m, normal_ws (enforce_count t m) = true)
  /\ enforce_count (enforce_count t n) n = enforce_count t n.
Proof.
  intros Hn.
  assert (Hfix : forall x, normal_ws x = true ->
                           Z.of_nat (length (split_ws x)) <= n ->
                           enforce_count x n = x).
  { intros x Hx Hle. rewrite enforce_count_under by done.
    by apply re_sub_ws_fixed. }
  split; [exact Hfix|]. split; [intros m; apply enforce_count_normal|].
  destruct (Z.le_gt_cases (Z.of_nat (length (split_ws t))) n) as [H|H].
  - apply Hfix; [apply enforce_count_normal|].
    by rewrite enforce_count_words_under.
  - destruct (Z.eq_dec n 0) as [->|Hpos].
    + rewrite (enforce_count_over t 0) by lia.
      change (slice_to 0 (split_ws t)) with (@nil str). reflexivity.
    + apply Hfix; [apply enforce_count_normal|].
      rewrite enforce_count_words_over by lia.
      rewrite append_last_length, length_take. lia.
Qed.

Lemma enforce_count_idempotent_witness :
  0 <= 2
  /\ enforce_count (enforce_count (pystr "a b  c d") 2) 2
     = enforce_count (pystr "a b  c d") 2.
Proof.
  split; [lia|]. apply (enforce_count_idempotent (pystr "a b  c d") 2). lia.
Defined.

(** With a negative count the slice of line 71 drops words from the end,
    and a second pass drops more. *)
Example enforce_count_negative :
  enforce_count (pystr "a b c") (-1) = pystr "a b..."
  /\ enforce_count (pystr "a b...") (-1) = pystr "a...".
Proof. split; reflexivity. Qed.

(** ** [generate_apps] *)

Example generate_apps_post_mixed :
  generate_apps_post (pystr "x") 3
    (pystr "1. Cooking" ++ [NEWLINE; NEWLINE] ++ pystr " - Driving a car  ")
  = pystr "1. Cooking" ++ [NEWLINE] ++ pystr "2. Driving a car" ++ [NEWLINE]
    ++ pystr "3. A simple example of x.".
Proof. reflexivity. Qed.

Example generate_apps_post_truncates :
  generate_apps_post (pystr "x") 1 (pystr "a" ++ [NEWLINE] ++ pystr "b")
  = pystr "1. a".
Proof. reflexivity. Qed.

(** The four prefixes of the spec's section 8 are stripped. *)
Example usable_lines_prefixes :
  usable_lines (pystr "1. Example" ++ [NEWLINE] ++ pystr "- Example" ++ [NEWLINE]
                ++ pystr "* Example" ++ [NEWLINE] ++ pystr "• Example")
  = [pystr "Example"; pystr "Example"; pystr "Example"; pystr "Example"].
Proof. reflexivity. Qed.

(** *** The padding loop *)

Lemma pad_lines_replicate n filler lines :
  pad_lines n filler lines
  = lines ++ replicate (Z.to_nat (n - Z.of_nat (length lines))) filler.
Proof.
  funelim (pad_lines n filler lines).
  - rewrite H. rewrite length_app. simpl length.
    replace (Z.to_nat (n - Z.of_nat (length lines)))
      with (S (Z.to_nat (n - Z.of_nat (length lines + 1)))) by lia.
    simpl. by rewrite <- app_assoc.
  - replace (Z.to_nat (n - Z.of_nat (length lines))) with 0%nat by lia.
    simpl. by rewrite app_nil_r.
Qed.

Lemma pad_lines_length n filler lines :
  length (pad_lines n filler lines) = Nat.max (length lines) (Z.to_nat n).
Proof. rewrite pad_lines_replicate, length_app, length_replicate. lia. Qed.

(** *** Numbering *)

Lemma number_from_imap i lines :
  number_from i lines = imap (fun k => numbered_line (i + Z.of_nat k)) lines.
Proof.
  revert i. induction lines as [|l rest IH]; intros i; [done|].
  simpl. rewrite Z.add_0_r. f_equal. rewrite IH.
  apply imap_ext. intros k x _. simpl. f_equal. lia.
Qed.

(** *** Splitting and joining on one character *)

Lemma split_char_no_sep sep s : sep ∉ s -> split_char sep s = [s].
Proof.
  induction s as [|c r IH]; intros H; [done|].
  simpl. apply not_elem_of_cons in H as [Hc Hr].
  destruct (N.eqb_spec c sep) as [->|_]; [done|]. by rewrite IH.
Qed.

Lemma split_char_app sep l s :
  sep ∉ l -> split_char sep (l ++ sep :: s) = l :: split_char sep s.
Proof.
  induction l as [|c r IH]; intros H.
  - simpl. by rewrite N.eqb_refl.
  - apply not_elem_of_cons in H as [Hc Hr]. simpl.
    destruct (N.eqb_spec c sep) as [->|_]; [done|]. by rewrite IH.
Qed.

Lemma split_char_join sep ls :
  ls <> [] -> Forall (fun l => sep ∉ l) ls ->
  split_char sep (join [sep] ls) = ls.
Proof.
  intros Hne H. induction H as [|x rest Hx Hrest IH]; [done|].
  destruct rest as [|y rest].
  - simpl. by apply split_char_no_sep.
  - rewrite join_cons2. simpl app. rewrite split_char_app by done.
    f_equal. by apply IH.
Qed.

Lemma split_char_pieces sep s : Forall (fun l => sep ∉ l) (split_char sep s).
Proof.
  induction s as [|c r IH]; [repeat constructor; apply not_elem_of_nil|].
  simpl. destruct (N.eqb_spec c sep) as [->|Hc].
  - constructor; [apply not_elem_of_nil|exact IH].
  - destruct (split_char sep r) as [|w ws].
    + repeat constructor. apply not_elem_of_cons. split; [done|apply not_elem_of_nil].
    + inversion IH; subst. constructor; [|done].
      apply not_elem_of_cons. split; [done|done].
Qed.

(** *** No line break inside a numbered line *)

Lemma elem_of_rev (s : str) c : c ∈ rev s <-> c ∈ s.
Proof. rewrite !list_elem_of_In. symmetry. apply in_rev. Qed.

Lemma strip_elem s c : c ∈ strip s -> c ∈ s.
Proof.
  unfold strip, rstrip, lstrip. intros H.
  apply (proj1 (elem_of_rev _ _)) in H. apply drop_while_elem in H.
  apply (proj1 (elem_of_rev _ _)) in H. by apply drop_while_elem in H.
Qed.

Lemma usable_lines_no_newline raw :
  Forall (fun l => NEWLINE ∉ l) (usable_lines raw).
Proof.
  unfold usable_lines. apply Forall_forall. intros l Hl.
  apply list_elem_of_In, in_map_iff in Hl as [l0 [<- Hl0]].
  apply filter_In in Hl0 as [Hl0 _].
  pose proof (split_char_pieces NEWLINE raw) as Hp.
  rewrite Forall_forall in Hp. specialize (Hp l0 (proj2 (list_elem_of_In _ _) Hl0)).
  intros Hin. apply Hp. apply strip_elem in Hin.
  by apply drop_while_elem in Hin.
Qed.

Lemma of_ascii_string_cons a s :
  of_ascii_string (String a s) = N_of_ascii a :: of_ascii_string s.
Proof. reflexivity. Qed.

Lemma string_of_uint_digits d :
  Forall digit_or_dash (of_ascii_string (NilEmpty.string_of_uint d)).
Proof.
  induction d; simpl NilEmpty.string_of_uint; [constructor|..];
    (rewrite of_ascii_string_cons; constructor;
     [left; cbn; lia|exact IHd]).
Qed.

Lemma format_int_digits i : Forall digit_or_dash (format_int i).
Proof.
  assert (Hz : forall d,
             Forall digit_or_dash (of_ascii_string (NilZero.string_of_uint d))).
  { intros d. unfold NilZero.string_of_uint.
    destruct d; try apply string_of_uint_digits.
    constructor; [left; cbn; lia|constructor]. }
  unfold format_int, NilZero.string_of_int.
  destruct (Z.to_int i) as [d|d]; [apply Hz|].
  rewrite of_ascii_string_cons. constructor; [by right|apply Hz].
Qed.

Lemma format_int_no_newline i : NEWLINE ∉ format_int i.
Proof.
  intros H. pose proof (format_int_digits i) as Hd.
  rewrite Forall_forall in Hd. specialize (Hd _ H).
  unfold NEWLINE in Hd. destruct Hd as [[Hd _]|Hd]; [lia|discriminate].
Qed.

Lemma literal_no_newline (s : str) :
  forallb (fun c => negb (c =? NEWLINE)%N) s = true -> NEWLINE ∉ s.
Proof.
  intros H Hin. rewrite forallb_forall in H.
  specialize (H _ (proj1 (list_elem_of_In _ _) Hin)).
  by rewrite N.eqb_refl in H.
Qed.

Lemma numbered_line_no_newline i text :
  NEWLINE ∉ text -> NEWLINE ∉ numbered_line i text.
Proof.
  intros Ht. unfold numbered_line. rewrite !not_elem_of_app.
  split; [apply format_int_no_newline|]. split; [|done].
  by apply literal_no_newline.
Qed.

Lemma apps_filler_no_newline topic :
  NEWLINE ∉ topic -> NEWLINE ∉ apps_filler topic.
Proof.
  intros Ht. unfold apps_filler. rewrite !not_elem_of_app.
  split; [by apply literal_no_newline|]. split; [done|].
  by apply literal_no_newline.
Qed.

(** *** The result *)

Lemma apps_items_length topic n raw : length (apps_items topic n raw) = n.
Proof.
  unfold apps_items. rewrite length_take, length_app, length_replicate. lia.
Qed.

Lemma generate_apps_post_items topic n raw :
  0 <= n ->
  generate_apps_post topic n raw
  = join [NEWLINE]
      (imap (fun i => numbered_line (Z.of_nat i + 1))
            (apps_items topic (Z.to_nat n) raw)).
Proof.
  intros Hn. unfold generate_apps_post, apps_items.
  rewrite pad_lines_replicate, slice_to_nonneg by done.
  rewrite number_from_imap. f_equal.
  replace (Z.to_nat (n - Z.of_nat (length (usable_lines raw))))
    with (Z.to_nat n - length (usable_lines raw))%nat by lia.
  apply imap_ext. intros i x _. simpl. f_equal. lia.
Qed.

(** C1, as the claim has it, fails: the filler sentence embeds the topic,
    and a topic with a line break in it spreads every filler over two
    lines.  For one item and an empty reply the result has two lines, and
    the second does not begin with a number. *)
Lemma generate_apps_line_break_counterexample :
  1 <= 1
  /\ generate_apps_post two_line_topic 1 []
     = pystr "1. A simple example of a" ++ [NEWLINE] ++ pystr "b."
  /\ split_char NEWLINE (generate_apps_post two_line_topic 1 [])
     = [ pystr "1. A simple example of a"; pystr "b." ]
  /\ length (split_char NEWLINE (generate_apps_post two_line_topic 1 []))
     <> Z.to_nat 1.
Proof.
  split; [lia|]. split; [vm_compute; reflexivity|].
  split; [vm_compute; reflexivity|]. vm_compute. discriminate.
Qed.

(** C1, amended.  For every count [n >= 1] and every raw reply, the result
    of [generate_apps] is [n] numbered items joined by line breaks: the
    usable lines of the reply in order, padded with the filler sentence
    [A simple example of {topic}.] when there are fewer than [n] (also when
    there are none) and cut to [n] when there are more; item [i] is written
    as the decimal [i], a dot, a space and its text.  When the topic holds
    no line break, splitting the result at line breaks gives exactly these
    [n] lines, line [i] beginning with [i], dot, space. *)
Theorem generate_apps_exactly_n (topic raw : str) (n : Z) :
  1 <= n ->
  let out := generate_apps_post topic n raw in
  let items := take (Z.to_nat n)
                 (usable_lines raw
                  ++ replicate (Z.to_nat n - length (usable_lines raw))
                               (pystr "A simple example of " ++ topic ++ pystr ".")) in
  length items = Z.to_nat n
  /\ out = join [NEWLINE] (imap (fun i => numbered_line (Z.of_nat i + 1)) items)
  /\ (NEWLINE ∉ topic ->
      length (split_char NEWLINE out) = Z.to_nat n
      /\ forall i, (i < Z.to_nat n)%nat ->
           exists text,
             items !! i = Some text
             /\ split_char NEWLINE out !! i
                = Some (format_int (Z.of_nat i + 1) ++ pystr ". " ++ text)).
Proof.
  change (pystr "A simple example of " ++ topic ++ pystr ".") with (apps_filler topic).
  intros Hn out items. subst out.
  pose proof (apps_items_length topic (Z.to_nat n) raw) as Hlen.
  pose proof (generate_apps_post_items topic n raw ltac:(lia)) as Hout.
  assert (Hitems : forall text, text ∈ apps_items topic (Z.to_nat n) raw ->
                                NEWLINE ∉ topic -> NEWLINE ∉ text).
  { intros text Hin Htopic. unfold apps_items in Hin.
    apply elem_of_take in Hin as (j & Hj & _).
    apply lookup_app_Some in Hj as [Hj|[_ Hj]].
    - pose proof (usable_lines_no_newline raw) as Hu.
      rewrite Forall_forall in Hu. apply Hu. apply list_elem_of_lookup. eauto.
    - apply lookup_replicate in Hj as [-> _]. by apply apps_filler_no_newline. }
  unfold apps_items in Hlen, Hout, Hitems.
  fold items in Hlen, Hout, Hitems.
  rewrite Hout. clear Hout.
  split; [exact Hlen|]. split; [reflexivity|]. intros Htopic.
  set (lines := imap (fun i => numbered_line (Z.of_nat i + 1)) items).
  assert (Hlines : split_char NEWLINE (join [NEWLINE] lines) = lines).
  { apply split_char_join.
    - intros E. apply (f_equal length) in E. unfold lines in E.
      rewrite length_imap, Hlen in E. simpl in E. lia.
    - apply Forall_forall. intros l Hl. unfold lines in Hl.
      apply elem_of_lookup_imap in Hl as (i & text & -> & Hi).
      apply numbered_line_no_newline.
      apply Hitems; [|done]. apply list_elem_of_lookup. eauto. }
  rewrite Hlines. split; [unfold lines; by rewrite length_imap|].
  intros i Hi. destruct (lookup_lt_is_Some_2 items i ltac:(lia)) as [text Htext].
  exists text. split; [exact Htext|].
  unfold lines. rewrite list_lookup_imap, Htext. reflexivity.
Qed.

Lemma generate_apps_exactly_n_witness :
  1 <= 5
  /\ (NEWLINE ∉ pystr "recursion")
  /\ length (split_char NEWLINE (generate_apps_post (pystr "recursion") 5 []))
     = Z.to_nat 5.
Proof.
  assert (Htopic : NEWLINE ∉ pystr "recursion")
    by (apply literal_no_newline; vm_compute; reflexivity).
  split; [lia|]. split; [exact Htopic|].
  destruct (generate_apps_exactly_n (pystr "recursion") [] 5 ltac:(lia))
    as (_ & _ & H).
  apply H. exact Htopic.
Defined.

(** *** Items without text *)

Lemma drop_while_all p s : forallb p s = true -> drop_while p s = [].
Proof.
  induction s as [|c r IH]; [done|]. simpl.
  intros H. apply andb_prop in H as [-> Hr]. auto.
Qed.

(** C10. The emptiness test of line 108 looks at the raw line, before the
    leading enumeration characters are removed: a reply that is one line
    of such characters only, not all of them whitespace, gives one usable
    item with no text, and the result begins with the line [1. ] with
    nothing after the space. *)
Theorem generate_apps_empty_item (topic line : str) (n : Z) :
  1 <= n ->
  forallb enum_char line = true -> NEWLINE ∉ line -> truthy (strip line) = true ->
  usable_lines line = [[]]
  /\ exists others,
       length others = (Z.to_nat n - 1)%nat
       /\ generate_apps_post topic n line = join [NEWLINE] (pystr "1. " :: others).
Proof.
  intros Hn Hall Hnl Htruthy.
  assert (Hu : usable_lines line = [[]]).
  { unfold usable_lines. rewrite split_char_no_sep by done.
    simpl. rewrite Htruthy. simpl. unfold re_sub_enum.
    by rewrite drop_while_all. }
  split; [exact Hu|].
  rewrite generate_apps_post_items by lia. unfold apps_items. rewrite Hu.
  destruct (Z.to_nat n) as [|k] eqn:Hk; [lia|].
  simpl. eexists. split; [|reflexivity].
  rewrite length_imap, length_take, length_replicate. lia.
Qed.

Lemma generate_apps_empty_item_witness :
  exists others,
    length others = 4%nat
    /\ generate_apps_post (pystr "recursion") 5 (pystr "***")
       = join [NEWLINE] (pystr "1. " :: others).
Proof.
  apply (generate_apps_empty_item (pystr "recursion") (pystr "***") 5).
  - lia.
  - reflexivity.
  - apply literal_no_newline. reflexivity.
  - reflexivity.
Defined.

Example generate_apps_post_stars :
  generate_apps_post (pystr "x") 2 (pystr "***")
  = pystr "1. " ++ [NEWLINE] ++ pystr "2. A simple example of x.".
Proof. reflexivity. Qed.

(** ** More on the lines of [generate_apps] *)

Lemma drop_while_keeps p s c : c ∈ s -> p c = false -> c ∈ drop_while p s.
Proof.
  induction s as [|a r IH]; intros Hin Hc; [done|].
  simpl. destruct (p a) eqn:Ha; [|done].
  apply elem_of_cons in Hin as [->|Hin]; [congruence|auto].
Qed.

Lemma drop_while_app_all p s t :
  forallb p s = true -> drop_while p (s ++ t) = drop_while p t.
Proof.
  induction s as [|a r IH]; [done|]. simpl.
  intros H. apply andb_prop in H as [-> Hr]. auto.
Qed.

Lemma drop_while_head_false p s :
  match drop_while p s with
  | [] => True
  | c :: _ => p c = false
  end.
Proof.
  induction s as [|a r IH]; [done|]. simpl.
  destruct (p a) eqn:Ha; [exact IH|exact Ha].
Qed.

Lemma enum_char_nonspace c : enum_char c = false -> isspace c = false.
Proof. unfold enum_char. intros H. by apply orb_false_elim in H as [_ H]. Qed.

Lemma strip_nonempty s c : c ∈ s -> isspace c = false -> strip s <> [].
Proof.
  intros Hin Hc E.
  assert (H : c ∈ strip s).
  { unfold strip, rstrip, lstrip. apply elem_of_rev.
    apply drop_while_keeps; [|done]. apply elem_of_rev.
    by apply drop_while_keeps. }
  rewrite E in H. by apply elem_of_nil in H.
Qed.

(** What [rstrip] removes is a whitespace suffix. *)
Lemma rstrip_suffix s :
  s = rstrip s ++ rev (take_while isspace (rev s)).
Proof.
  unfold rstrip. rewrite <- rev_app_distr, take_drop_while.
  by rewrite rev_involutive.
Qed.

Lemma usable_lines_single l :
  NEWLINE ∉ l ->
  usable_lines l
  = if truthy (strip l) then [strip (re_sub_enum l)] else [].
Proof.
  intros H. unfold usable_lines. rewrite split_char_no_sep by done.
  simpl. by destruct (truthy (strip l)).
Qed.

Lemma usable_lines_line_by_line_aux l rest :
  NEWLINE ∉ l ->
  usable_lines (l ++ NEWLINE :: rest) = usable_lines l ++ usable_lines rest.
Proof.
  intros H. unfold usable_lines.
  rewrite (split_char_app NEWLINE l rest) by done.
  rewrite (split_char_no_sep NEWLINE l) by done.
  simpl. destruct (truthy (strip l)); reflexivity.
Qed.

(** X1. The lines of a reply are cleaned one by one: the usable lines of a
    first line followed by a line break and the rest are those of the line,
    then those of the rest. *)
Theorem usable_lines_line_by_line (l rest : str) :
  NEWLINE ∉ l ->
  usable_lines (l ++ NEWLINE :: rest) = usable_lines l ++ usable_lines rest.
Proof. apply usable_lines_line_by_line_aux. Qed.

Lemma usable_lines_line_by_line_witness :
  usable_lines (pystr "1. a" ++ NEWLINE :: pystr "- b")
  = usable_lines (pystr "1. a") ++ usable_lines (pystr "- b").
Proof.
  apply (usable_lines_line_by_line (pystr "1. a") (pystr "- b")).
  apply literal_no_newline. vm_compute. reflexivity.
Defined.

(** X2. A line that starts with any run of digits, dots, dashes, asterisks,
    bullets and whitespace, followed by a text that begins with another
    character, gives that text without its trailing whitespace: the run is
    dropped whole, digits that belong to the sentence included. *)
Theorem usable_lines_strips_prefix (prefix text : str) (c : char) (rest : str) :
  forallb enum_char prefix = true ->
  text = c :: rest -> enum_char c = false ->
  NEWLINE ∉ prefix -> NEWLINE ∉ text ->
  usable_lines (prefix ++ text) = [rstrip text].
Proof.
  intros Hpre -> Hc Hnp Hnt.
  rewrite usable_lines_single by (rewrite not_elem_of_app; done).
  assert (Hsp : isspace c = false) by by apply enum_char_nonspace.
  destruct (strip (prefix ++ c :: rest)) as [|x xs] eqn:E.
  - exfalso. apply (strip_nonempty (prefix ++ c :: rest) c); [|done|done].
    apply elem_of_app. right. by left.
  - simpl. unfold re_sub_enum. rewrite drop_while_app_all by done.
    simpl. rewrite Hc. unfold strip, lstrip. simpl. by rewrite Hsp.
Qed.

Lemma usable_lines_strips_prefix_witness :
  usable_lines (pystr "3. " ++ pystr "D printing ") = [rstrip (pystr "D printing ")].
Proof.
  apply (usable_lines_strips_prefix (pystr "3. ") (pystr "D printing ")
           68%N (pystr " printing ")).
  - vm_compute. reflexivity.
  - vm_compute. reflexivity.
  - vm_compute. reflexivity.
  - apply literal_no_newline. vm_compute. reflexivity.
  - apply literal_no_newline. vm_compute. reflexivity.
Defined.

Example usable_lines_eats_digits :
  usable_lines (pystr "3D printing") = [pystr "D printing"]
  /\ usable_lines (pystr "24/7 support lines") = [pystr "/7 support lines"].
Proof. split; vm_compute; reflexivity. Qed.

(** X3. Every item that comes out of the cleaning is free of line breaks
    and, unless it is empty, begins with a character outside the prefix
    class (so not with a digit, a bullet or whitespace) and does not end
    with whitespace. *)
Theorem usable_lines_items_clean (raw item : str) :
  item ∈ usable_lines raw ->
  (NEWLINE ∉ item)
  /\ (item = []
      \/ exists c rest, item = c :: rest /\ enum_char c = false
                        /\ head_space (rev item) = false).
Proof.
  intros Hin. split.
  { pose proof (usable_lines_no_newline raw) as H.
    rewrite Forall_forall in H. by apply H. }
  unfold usable_lines in Hin.
  apply list_elem_of_In, in_map_iff in Hin as (l & <- & _).
  unfold re_sub_enum. set (x := drop_while enum_char l).
  pose proof (drop_while_head_false enum_char l) as Hx. fold x in Hx.
  assert (Hl : lstrip x = x).
  { unfold lstrip. destruct x as [|c r]; [done|]. simpl.
    by rewrite (enum_char_nonspace c Hx). }
  unfold strip. rewrite Hl.
  destruct (rstrip x) as [|c r] eqn:E; [by left|]. right.
  exists c, r. split; [done|].
  pose proof (rstrip_suffix x) as Hs. rewrite E in Hs.
  split.
  - rewrite Hs in Hx. exact Hx.
  - rewrite <- E. unfold rstrip. rewrite rev_involutive. apply drop_while_head.
Qed.

Lemma usable_lines_items_clean_witness :
  (NEWLINE ∉ pystr "Cooking")
  /\ (pystr "Cooking" = []
      \/ exists c rest, pystr "Cooking" = c :: rest /\ enum_char c = false
                        /\ head_space (rev (pystr "Cooking")) = false).
Proof.
  apply (usable_lines_items_clean (pystr " 1. Cooking  ")).
  vm_compute. left.
Defined.

Lemma split_char_all p sep s :
  forallb p s = true -> Forall (fun l => forallb p l = true) (split_char sep s).
Proof.
  induction s as [|c r IH]; intros H; [by repeat constructor|].
  simpl in H. apply andb_prop in H as [Hc Hr]. specialize (IH Hr). simpl.
  destruct (c =? sep)%N; [by constructor|].
  destruct (split_char sep r) as [|w ws]; [by repeat constructor; simpl; rewrite Hc|].
  inversion IH as [|? ? Hw Hws]; subst. constructor; [|done].
  simpl. by rewrite Hc, Hw.
Qed.

Lemma filter_blank_lines ls :
  Forall (fun l => forallb isspace l = true) ls ->
  List.filter (fun l => truthy (strip l)) ls = [].
Proof.
  induction 1 as [|l ls Hl _ IH]; [done|].
  simpl. unfold strip at 1, lstrip. rewrite drop_while_all by done. simpl.
  exact IH.
Qed.

Lemma usable_lines_blank raw : forallb isspace raw = true -> usable_lines raw = [].
Proof.
  intros H. unfold usable_lines.
  by rewrite filter_blank_lines by by apply split_char_all.
Qed.

(** X4. A reply that is empty or holds nothing but whitespace and line
    breaks gives no usable line, and the result is the filler sentence [n]
    times, numbered. *)
Theorem generate_apps_blank_reply (topic raw : str) (n : Z) :
  0 <= n -> forallb isspace raw = true ->
  usable_lines raw = []
  /\ generate_apps_post topic n raw
     = join [NEWLINE]
         (imap (fun i => numbered_line (Z.of_nat i + 1))
               (replicate (Z.to_nat n) (apps_filler topic))).
Proof.
  intros Hn Hblank. pose proof (usable_lines_blank raw Hblank) as Hu.
  split; [exact Hu|].
  rewrite generate_apps_post_items by done. unfold apps_items. rewrite Hu.
  simpl. rewrite Nat.sub_0_r. rewrite firstn_all2; [done|].
  by rewrite length_replicate.
Qed.

Lemma generate_apps_blank_reply_witness :
  generate_apps_post (pystr "x") 2 (pystr "  " ++ [NEWLINE] ++ pystr " ")
  = join [NEWLINE]
      (imap (fun i => numbered_line (Z.of_nat i + 1))
            (replicate (Z.to_nat 2) (apps_filler (pystr "x")))).
Proof.
  apply (generate_apps_blank_reply (pystr "x")
           (pystr "  " ++ [NEWLINE] ++ pystr " ") 2); [lia|].
  vm_compute. reflexivity.
Defined.

(** X5. With a count of zero the result is the empty string; with a
    negative count nothing is padded, and the slice of line 113 drops the
    last [-n] usable lines before the rest is numbered. *)
Theorem generate_apps_nonpositive (topic raw : str) (n : Z) :
  n <= 0 ->
  (n = 0 -> generate_apps_post topic n raw = [])
  /\ (n < 0 ->
      generate_apps_post topic n raw
      = join [NEWLINE]
          (number_from 1
             (take (length (usable_lines raw) - Z.to_nat (- n))
                   (usable_lines raw)))).
Proof.
  intros Hn.
  assert (H : generate_apps_post topic n raw
              = join [NEWLINE] (number_from 1 (slice_to n (usable_lines raw)))).
  { unfold generate_apps_post. rewrite pad_lines_replicate.
    replace (Z.to_nat (n - Z.of_nat (length (usable_lines raw)))) with 0%nat by lia.
    simpl replicate. by rewrite app_nil_r. }
  rewrite H. unfold slice_to. split.
  - intros ->. reflexivity.
  - intros Hneg. destruct (Z.leb_spec 0 n); [lia|]. do 3 f_equal. lia.
Qed.

Lemma generate_apps_nonpositive_witness :
  -1 <= 0 /\ -1 < 0
  /\ generate_apps_post (pystr "x") (-1) (pystr "a" ++ [NEWLINE] ++ pystr "b")
     = join [NEWLINE]
         (number_from 1
            (take (length (usable_lines (pystr "a" ++ [NEWLINE] ++ pystr "b"))
                   - Z.to_nat (- (-1)))
                  (usable_lines (pystr "a" ++ [NEWLINE] ++ pystr "b")))).
Proof.
  split; [lia|]. split; [lia|].
  apply (generate_apps_nonpositive (pystr "x")
           (pystr "a" ++ [NEWLINE] ++ pystr "b") (-1)); lia.
Defined.

Example generate_apps_post_negative :
  generate_apps_post (pystr "x") (-1) (pystr "a" ++ [NEWLINE] ++ pystr "b")
  = pystr "1. a"
  /\ generate_apps_post (pystr "x") 0 (pystr "a") = [].
Proof. split; vm_compute; reflexivity. Qed.

(** *** Whitespace around the reply *)

Lemma split_char_nonempty sep s : split_char sep s <> [].
Proof.
  destruct s as [|c r]; [done|]. simpl.
  destruct (c =? sep)%N; [done|]. by destruct (split_char sep r).
Qed.

Lemma isspace_enum_char c : isspace c = true -> enum_char c = true.
Proof. unfold enum_char. intros ->. apply orb_true_r. Qed.

Lemma strip_space c l : isspace c = true -> strip (c :: l) = strip l.
Proof. intros Hc. unfold strip, lstrip. simpl. by rewrite Hc. Qed.

Lemma re_sub_enum_space c l :
  isspace c = true -> re_sub_enum (c :: l) = re_sub_enum l.
Proof.
  intros Hc. unfold re_sub_enum. simpl. by rewrite (isspace_enum_char c Hc).
Qed.

Lemma usable_lines_space c r :
  isspace c = true -> usable_lines (c :: r) = usable_lines r.
Proof.
  intros Hc. unfold usable_lines. simpl split_char.
  destruct (N.eqb_spec c NEWLINE) as [->|Hne]; [reflexivity|].
  pose proof (split_char_nonempty NEWLINE r) as Hr.
  destruct (split_char NEWLINE r) as [|l ls]; [done|].
  simpl. rewrite (strip_space c l Hc).
  destruct (truthy (strip l)); [|done].
  simpl. by rewrite (re_sub_enum_space c l Hc).
Qed.

Lemma usable_lines_lstrip s : usable_lines (lstrip s) = usable_lines s.
Proof.
  unfold lstrip. induction s as [|c r IH]; [done|].
  simpl drop_while. destruct (isspace c) eqn:Hc; [|done].
  by rewrite usable_lines_space.
Qed.

Lemma drop_while_app_some p x y :
  forallb p x = false -> drop_while p (x ++ y) = drop_while p x ++ y.
Proof.
  induction x as [|c r IH]; [done|]. simpl.
  destruct (p c) eqn:Hc; [|done]. simpl. exact IH.
Qed.

Lemma forallb_rev (p : char -> bool) s : forallb p (rev s) = forallb p s.
Proof.
  induction s as [|c r IH]; [done|]. simpl.
  rewrite forallb_app, IH. simpl. rewrite andb_true_r. apply andb_comm.
Qed.

Lemma rstrip_app_spaces x sp :
  forallb isspace sp = true -> rstrip (x ++ sp) = rstrip x.
Proof.
  intros Hsp. unfold rstrip. rewrite rev_app_distr.
  by rewrite drop_while_app_all by by rewrite forallb_rev.
Qed.

Lemma strip_app_spaces x sp :
  forallb isspace sp = true -> strip (x ++ sp) = strip x.
Proof.
  intros Hsp. unfold strip, lstrip.
  destruct (forallb isspace x) eqn:Hx.
  - rewrite drop_while_app_all by done.
    by rewrite !drop_while_all.
  - rewrite drop_while_app_some by done. by apply rstrip_app_spaces.
Qed.

Lemma forallb_impl (p q : char -> bool) s :
  (forall c, p c = true -> q c = true) -> forallb p s = true -> forallb q s = true.
Proof.
  intros Hpq. induction s as [|c r IH]; [done|]. simpl.
  intros H. apply andb_prop in H as [Hc Hr]. by rewrite (Hpq c Hc), IH.
Qed.

Lemma usable_lines_line_spaces a sp :
  NEWLINE ∉ a -> NEWLINE ∉ sp -> forallb isspace sp = true ->
  usable_lines (a ++ sp) = usable_lines a.
Proof.
  intros Ha Hs Hsp.
  rewrite !usable_lines_single by (rewrite ?not_elem_of_app; done).
  rewrite strip_app_spaces by done.
  destruct (truthy (strip a)); [|done]. f_equal.
  unfold re_sub_enum. destruct (forallb enum_char a) eqn:Hen.
  - rewrite drop_while_app_all by done.
    rewrite !drop_while_all; [done|done|].
    by apply (forallb_impl isspace enum_char sp isspace_enum_char).
  - rewrite drop_while_app_some by done. by apply strip_app_spaces.
Qed.

Lemma first_line s :
  NEWLINE ∉ s \/ exists l rest, s = l ++ NEWLINE :: rest /\ NEWLINE ∉ l.
Proof.
  induction s as [|c r IH]; [left; apply not_elem_of_nil|].
  destruct (N.eqb_spec c NEWLINE) as [->|Hc].
  - right. exists [], r. split; [done|apply not_elem_of_nil].
  - destruct IH as [Hr|(l & rest & -> & Hl)].
    + left. apply not_elem_of_cons. by split.
    + right. exists (c :: l), rest. split; [done|].
      apply not_elem_of_cons. by split.
Qed.

Lemma usable_lines_app_spaces a sp :
  forallb isspace sp = true -> usable_lines (a ++ sp) = usable_lines a.
Proof.
  intros Hsp.
  assert (H : forall k a, (length a < k)%nat -> usable_lines (a ++ sp) = usable_lines a).
  { clear a. induction k as [|k IH]; intros a Hk; [lia|].
    destruct (first_line a) as [Ha|(l & rest & -> & Hl)].
    - destruct (first_line sp) as [Hs|(s1 & s2 & -> & Hs1)].
      + by apply usable_lines_line_spaces.
      + rewrite forallb_app in Hsp. apply andb_prop in Hsp as [H1 H2].
        simpl in H2.
        rewrite app_assoc.
        rewrite usable_lines_line_by_line_aux
          by (rewrite not_elem_of_app; done).
        rewrite (usable_lines_blank s2) by done. rewrite app_nil_r.
        by apply usable_lines_line_spaces.
    - rewrite <- app_assoc. simpl app.
      rewrite !usable_lines_line_by_line_aux by done.
      f_equal. apply IH. rewrite length_app in Hk. simpl in Hk. lia. }
  apply (H (S (length a))). lia.
Qed.

Lemma usable_lines_strip raw : usable_lines (strip raw) = usable_lines raw.
Proof.
  rewrite <- (usable_lines_lstrip raw). unfold strip.
  set (y := lstrip raw). rewrite (rstrip_suffix y) at 2.
  symmetry. apply usable_lines_app_spaces.
  rewrite forallb_rev. apply forallb_forall. intros c Hc.
  pose proof (take_while_Forall isspace (rev y)) as Ht.
  rewrite Forall_forall in Ht. apply Ht. by apply list_elem_of_In.
Qed.

(** X17. Whitespace and blank lines around a reply change nothing: the
    usable lines of the stripped reply are those of the reply itself, and
    so is the result built from them. *)
Theorem generate_apps_strip (topic raw : str) (n : Z) :
  usable_lines (strip raw) = usable_lines raw
  /\ generate_apps_post topic n (strip raw) = generate_apps_post topic n raw.
Proof.
  split; [apply usable_lines_strip|].
  unfold generate_apps_post. by rewrite usable_lines_strip.
Qed.

(** ** More on [enforce_count] and [generate_section] *)

Lemma enforce_count_re_sub t n : enforce_count (re_sub_ws t) n = enforce_count t n.
Proof. unfold enforce_count. by rewrite re_sub_ws_idem. Qed.

Lemma take_append_last (d : str) (l : list str) k :
  (k < length l)%nat -> take k (append_last d l) = take k l.
Proof.
  revert k. induction l as [|w rest IH]; intros k Hk; [simpl in Hk; lia|].
  destruct rest as [|y rest].
  - simpl in Hk. assert (k = 0)%nat as -> by lia. reflexivity.
  - change (append_last d (w :: y :: rest)) with (w :: append_last d (y :: rest)).
    destruct k as [|k]; [reflexivity|]. simpl take. f_equal.
    apply IH. simpl in *. lia.
Qed.

(** X6. Cutting to a budget and then to a smaller one is cutting to the
    smaller one at once: for [0 <= n <= m], normalizing the result for [m]
    with target [n] gives the result for [n]. *)
Theorem enforce_count_compose (t : str) (m n : Z) :
  0 <= n -> n <= m ->
  enforce_count (enforce_count t m) n = enforce_count t n.
Proof.
  intros Hn Hm.
  destruct (Z.le_gt_cases (Z.of_nat (length (split_ws t))) m) as [H|H].
  { rewrite (enforce_count_under t m) by done. apply enforce_count_re_sub. }
  pose proof (enforce_count_words_over t m ltac:(lia) ltac:(lia)) as Hw.
  assert (Hlen : length (split_ws (enforce_count t m)) = Nat.max 1 (Z.to_nat m)).
  { rewrite Hw, append_last_length, length_take. lia. }
  destruct (Z.eq_dec n m) as [->|Hne].
  - destruct (Z.eq_dec m 0) as [->|Hpos].
    + rewrite (enforce_count_over t 0) by lia.
      change (slice_to 0 (split_ws t)) with (@nil str). reflexivity.
    + rewrite enforce_count_under by lia.
      apply re_sub_ws_fixed, enforce_count_normal.
  - rewrite (enforce_count_over (enforce_count t m) n) by lia.
    rewrite (enforce_count_over t n) by lia.
    rewrite !slice_to_nonneg by done. rewrite Hw.
    rewrite take_append_last by (rewrite length_take; lia).
    rewrite take_take. do 3 f_equal. lia.
Qed.

Lemma enforce_count_compose_witness :
  0 <= 1 /\ 1 <= 3
  /\ enforce_count (enforce_count (pystr "a b c d e") 3) 1
     = enforce_count (pystr "a b c d e") 1.
Proof.
  split; [lia|]. split; [lia|].
  apply (enforce_count_compose (pystr "a b c d e") 3 1); lia.
Defined.

(** *** Text without outer whitespace *)

Lemma last_space_cons c r : r <> [] -> last_space (c :: r) = last_space r.
Proof. by destruct r. Qed.

Lemma last_space_snoc s c : last_space (s ++ [c]) = isspace c.
Proof.
  induction s as [|a r IH]; [done|].
  change ((a :: r) ++ [c]) with (a :: (r ++ [c])).
  rewrite last_space_cons; [exact IH|]. by destruct r.
Qed.

Lemma last_space_rev s : last_space (rev s) = head_space s.
Proof. destruct s as [|c r]; [done|]. simpl rev. apply last_space_snoc. Qed.

Lemma join_cons_head sep c w ws :
  join sep ((c :: w) :: ws) = c :: join sep (w :: ws).
Proof. by destruct ws. Qed.

(** A text in normal form that does not end with a space is its words
    joined by single spaces, after the one space it may begin with. *)
Lemma normal_ws_join_words s :
  normal_ws s = true -> last_space s = false ->
  s = (if head_space s then [SPACE] else []) ++ join [SPACE] (split_ws s).
Proof.
  induction s as [|c r IH]; intros Hn Hl; [done|].
  simpl in Hn. apply andb_prop in Hn as [Hc Hnr].
  simpl head_space. destruct (isspace c) eqn:Hsp.
  - apply andb_prop in Hc as [Hc Hh]. apply N.eqb_eq in Hc. subst c.
    apply negb_true_iff in Hh.
    destruct r as [|c' r']; [simpl in Hl; congruence|].
    rewrite last_space_cons in Hl by done.
    rewrite split_ws_space by done.
    rewrite (IH Hnr Hl) at 1. by rewrite Hh.
  - destruct r as [|c' r']; [simpl; by rewrite Hsp|].
    rewrite last_space_cons in Hl by done.
    specialize (IH Hnr Hl). simpl head_space in IH.
    change (split_ws (c :: c' :: r'))
      with (if isspace c then split_ws (c' :: r')
            else if isspace c' then [c] :: split_ws (c' :: r')
            else match split_ws (c' :: r') with
                 | w :: ws => (c :: w) :: ws
                 | [] => [[c]]
                 end).
    rewrite Hsp. destruct (isspace c') eqn:Hsp'.
    + destruct (split_ws (c' :: r')) as [|w ws] eqn:Hws.
      * simpl in IH. rewrite IH in Hl. simpl in Hl. congruence.
      * rewrite join_cons2. simpl app in *. by rewrite IH at 1.
    + destruct (split_ws (c' :: r')) as [|w ws] eqn:Hws; [discriminate IH|].
      rewrite join_cons_head. simpl app in *. by rewrite IH at 1.
Qed.

Lemma sub_ws_runs_last b s :
  s <> [] -> last_space s = false ->
  sub_ws_runs b s <> [] /\ last_space (sub_ws_runs b s) = false.
Proof.
  revert b. induction s as [|c r IH]; intros b Hne Hl; [done|].
  destruct r as [|c' r'].
  - simpl in Hl. simpl. by rewrite Hl.
  - rewrite last_space_cons in Hl by done.
    assert (Hr : forall b', sub_ws_runs b' (c' :: r') <> []
                            /\ last_space (sub_ws_runs b' (c' :: r')) = false)
      by (intros b'; by apply IH).
    change (sub_ws_runs b (c :: c' :: r'))
      with (if isspace c
            then (if b then sub_ws_runs true (c' :: r')
                  else SPACE :: sub_ws_runs true (c' :: r'))
            else c :: sub_ws_runs false (c' :: r')).
    destruct (isspace c); [destruct b|].
    + apply Hr.
    + destruct (Hr true) as [Hn Hls]. split; [done|]. by rewrite last_space_cons.
    + destruct (Hr false) as [Hn Hls]. split; [done|]. by rewrite last_space_cons.
Qed.

Lemma re_sub_ws_head s : head_space (re_sub_ws s) = head_space s.
Proof.
  destruct s as [|c r]; [done|]. unfold re_sub_ws. simpl.
  by destruct (isspace c) eqn:E.
Qed.

(** On a text without outer whitespace, [re.sub] yields the words joined
    by single spaces. *)
Lemma re_sub_ws_trimmed s :
  head_space s = false -> last_space s = false ->
  re_sub_ws s = join [SPACE] (split_ws s).
Proof.
  intros Hh Hl. destruct s as [|c r]; [done|].
  destruct (sub_ws_runs_last false (c :: r) ltac:(done) Hl) as [_ Hl'].
  pose proof (normal_ws_join_words (re_sub_ws (c :: r))
                (re_sub_ws_normal _) Hl') as H.
  rewrite re_sub_ws_head, Hh, split_ws_re_sub in H. exact H.
Qed.

Lemma strip_head s : head_space (strip s) = false.
Proof.
  unfold strip. set (y := lstrip s).
  assert (Hy : head_space y = false) by apply drop_while_head.
  pose proof (rstrip_suffix y) as Hs.
  destruct (rstrip y) as [|c r]; [done|].
  rewrite Hs in Hy. exact Hy.
Qed.

Lemma strip_last s : last_space (strip s) = false.
Proof.
  unfold strip, rstrip. rewrite last_space_rev. apply drop_while_head.
Qed.

Lemma split_ws_spaces sp :
  Forall (fun c => isspace c = true) sp -> split_ws sp = [].
Proof. induction 1 as [|c sp Hc _ IH]; [done|]. by rewrite split_ws_space. Qed.

Lemma split_ws_app_spaces a sp :
  Forall (fun c => isspace c = true) sp -> split_ws (a ++ sp) = split_ws a.
Proof.
  intros Hsp. induction a as [|c r IH]; [by apply split_ws_spaces|].
  change ((c :: r) ++ sp) with (c :: (r ++ sp)).
  destruct (isspace c) eqn:Hc; [by rewrite !split_ws_space|].
  destruct r as [|c' r'].
  - simpl app. simpl. rewrite Hc. destruct Hsp as [|s1 sp Hs1 Hsp]; [done|].
    rewrite Hs1. by rewrite (split_ws_spaces (s1 :: sp)) by by constructor.
  - change (split_ws (c :: (c' :: r') ++ sp))
      with (if isspace c then split_ws ((c' :: r') ++ sp)
            else if isspace c' then [c] :: split_ws ((c' :: r') ++ sp)
            else match split_ws ((c' :: r') ++ sp) with
                 | w :: ws => (c :: w) :: ws
                 | [] => [[c]]
                 end).
    rewrite IH. simpl. by rewrite Hc.
Qed.

Lemma split_ws_strip s : split_ws (strip s) = split_ws s.
Proof.
  unfold strip.
  assert (Hl : split_ws (lstrip s) = split_ws s).
  { unfold lstrip. induction s as [|c r IH]; [done|]. simpl drop_while.
    destruct (isspace c) eqn:Hc; [|done]. by rewrite split_ws_space. }
  rewrite <- Hl. set (y := lstrip s).
  rewrite (rstrip_suffix y) at 2. symmetry. apply split_ws_app_spaces.
  apply Forall_forall. intros c Hc.
  apply (proj1 (elem_of_rev _ _)) in Hc.
  pose proof (take_while_Forall isspace (rev y)) as Ht.
  rewrite Forall_forall in Ht. by apply Ht.
Qed.

(** What [generate_section] makes of a reply. *)
Lemma enforce_count_strip text n :
  0 <= n ->
  enforce_count (strip text) n
  = if Z.of_nat (length (split_ws text)) <=? n
    then join [SPACE] (split_ws text)
    else join [SPACE] (take (Z.to_nat n) (split_ws text)) ++ ELLIPSIS.
Proof.
  intros Hn. destruct (Z.leb_spec (Z.of_nat (length (split_ws text))) n) as [H|H].
  - rewrite enforce_count_under by (by rewrite split_ws_strip).
    rewrite re_sub_ws_trimmed by (apply strip_head || apply strip_last).
    by rewrite split_ws_strip.
  - rewrite enforce_count_over by (by rewrite split_ws_strip).
    by rewrite slice_to_nonneg, split_ws_strip.
Qed.


(** ** Steps of the run *)

Lemma bind_run {A B} (m : M A) (k : A -> M B) w :
  (m ≫= k) w
  = match m w with
    | (Ok a, w') => k a w'
    | (Stop, w') => (Stop, w')
    | (Raise e, w') => (Raise e, w')
    end.
Proof. reflexivity. Qed.

Lemma log_logs e w : log e w = logs [e] w.
Proof. reflexivity. Qed.

Lemma logs_logs evs1 evs2 w : logs evs2 (logs evs1 w) = logs (evs1 ++ evs2) w.
Proof. unfold logs. simpl. by rewrite app_assoc. Qed.

Lemma logs_nil w : logs [] w = w.
Proof. destruct w. unfold logs. simpl. by rewrite app_nil_r. Qed.

(** *** The candidates loop *)

Lemma try_models_run ms w :
  (exists i m,
      ms !! i = Some m
      /\ is_Some (service w (api_key w) (trace w ++ probe_trace (take i ms)) m PING)
      /\ (forall j mj, (j < i)%nat -> ms !! j = Some mj ->
            service w (api_key w) (trace w ++ probe_trace (take j ms)) mj PING = None)
      /\ try_models ms w = (Ok m, logs (probe_trace (take (S i) ms)) w))
  \/ ((forall i m, ms !! i = Some m ->
         service w (api_key w) (trace w ++ probe_trace (take i ms)) m PING = None)
      /\ try_models ms w = (Stop, logs (probe_trace ms ++ [EError no_model_msg]) w)).
Proof.
  revert w. induction ms as [|m rest IH]; intros w.
  - right. split; [intros i m H; by rewrite lookup_nil in H|]. reflexivity.
  - destruct (service w (api_key w) (trace w) m PING) as [text|] eqn:Hm.
    + left. exists 0%nat, m. split; [done|]. simpl. rewrite app_nil_r.
      split; [by rewrite Hm|]. split; [intros; lia|].
      unfold try_except. rewrite bind_run. unfold generate_content.
      rewrite Hm. reflexivity.
    + assert (Hstep : try_models (m :: rest) w
                      = try_models rest (log (EModelCall m PING None) w)).
      { simpl. unfold try_except. rewrite bind_run. unfold generate_content.
        by rewrite Hm. }
      rewrite Hstep.
      destruct (IH (log (EModelCall m PING None) w))
        as [(i & mi & Hi & Hok & Hbefore & Hrun)|[Hall Hrun]].
      * left. exists (S i), mi. split; [done|]. simpl in Hok, Hbefore.
        split; [simpl; by rewrite <- app_assoc in Hok|]. split.
        -- intros [|j] mj Hj Hmj.
           ++ simpl in Hmj. injection Hmj as <-. simpl. by rewrite app_nil_r.
           ++ simpl in Hmj. specialize (Hbefore j mj ltac:(lia) Hmj).
              simpl. by rewrite <- app_assoc in Hbefore.
        -- rewrite Hrun, log_logs, logs_logs. reflexivity.
      * right. split.
        -- intros [|i] mi Hmi.
           ++ simpl in Hmi. injection Hmi as <-. simpl. by rewrite app_nil_r.
           ++ simpl in Hmi. specialize (Hall i mi Hmi). simpl in Hall.
              simpl. by rewrite <- app_assoc in Hall.
        -- rewrite Hrun, log_logs, logs_logs. reflexivity.
Qed.

(** *** [init_genai] *)

Lemma init_genai_run w :
  (credential_absent w /\ init_genai w = (Stop, logs [EError no_key_msg] w))
  \/ (exists k,
        env w !! GOOGLE_API_KEY = Some k /\ k <> []
        /\ ((exists i m,
               first_working w i m
               /\ init_genai w
                  = (Ok m, logs (probe_trace (take (S i) PREFERRED_MODELS))
                             (set_api_key (Some k) w)))
            \/ (all_probes_fail w
                /\ init_genai w
                   = (Stop, logs (probe_trace PREFERRED_MODELS ++ [EError no_model_msg])
                              (set_api_key (Some k) w))))).
Proof.
  unfold init_genai. rewrite bind_run. unfold os_environ_get.
  destruct (env w !! GOOGLE_API_KEY) as [[|c k]|] eqn:Hkey.
  - left. split; [by right|reflexivity].
  - right. exists (c :: k). split; [done|]. split; [done|].
    rewrite bind_run. unfold genai_configure.
    destruct (try_models_run PREFERRED_MODELS (set_api_key (Some (c :: k)) w))
      as [(i & m & Hi & Hok & Hbefore & Hrun)|[Hall Hrun]].
    + left. exists i, m. split; [|exact Hrun].
      unfold first_working, probe_reply. rewrite Hkey. done.
    + right. split; [|exact Hrun].
      unfold all_probes_fail, probe_reply. rewrite Hkey. exact Hall.
  - left. split; [by left|reflexivity].
Qed.

Lemma first_working_unique w i m i' m' :
  first_working w i m -> first_working w i' m' -> i = i' /\ m = m'.
Proof.
  intros (Hi & [x Hx] & Hlt) (Hi' & [x' Hx'] & Hlt').
  assert (i = i') as <-.
  { destruct (Nat.lt_trichotomy i i') as [H|[H|H]]; [|done|].
    - specialize (Hlt' i m H Hi). congruence.
    - specialize (Hlt i' m' H Hi'). congruence. }
  split; [done|congruence].
Qed.

(** C6. [init_genai] returns the first candidate, in the order of the list,
    whose test request the service answers; the candidates before it were
    each tried once and failed, and none after it is tried.  It stops the run
    exactly when there is no credential (the variable is unset or empty) or
    every candidate's test request fails; it then has shown one error
    message, after trying no candidate or each candidate once, and returns no
    model; the run of the button ends there, stopped.  No exception leaves
    it. *)
Theorem init_genai_selects (w : world) :
  (forall m w', init_genai w = (Ok m, w') ->
     ~ credential_absent w
     /\ exists i, first_working w i m
        /\ trace w' = trace w ++ probe_trace (take (S i) PREFERRED_MODELS))
  /\ (forall i m, ~ credential_absent w -> first_working w i m ->
        fst (init_genai w) = Ok m)
  /\ (fst (init_genai w) = Stop <-> credential_absent w \/ all_probes_fail w)
  /\ (fst (init_genai w) = Stop ->
      exists probed msg,
        trace (snd (init_genai w)) = trace w ++ probe_trace probed ++ [EError msg]
        /\ (probed = [] \/ probed = PREFERRED_MODELS))
  /\ (forall e, fst (init_genai w) <> Raise e)
  /\ (forall f, truthy (topic f) = true -> fst (init_genai w) = Stop ->
                on_generate f w = (Stop, snd (init_genai w))).
Proof.
  assert (Hrest : forall f, truthy (topic f) = true -> fst (init_genai w) = Stop ->
                            on_generate f w = (Stop, snd (init_genai w))).
  { intros f Ht Hs. unfold on_generate. rewrite bind_run, Ht. cbn [negb].
    change (ret tt w) with (Ok tt, w). cbv iota beta. rewrite bind_run.
    destruct (init_genai w) as [[m| |e] w']; simpl in Hs; [discriminate| |discriminate].
    reflexivity. }
  assert (Hpresent : forall k, env w !! GOOGLE_API_KEY = Some k -> k <> [] ->
                               ~ credential_absent w).
  { intros k Hk Hne [H|H]; rewrite Hk in H; [discriminate|]. by injection H. }
  destruct (init_genai_run w)
    as [[Habs Hrun]|(k & Hk & Hne & [(i & m & Hfw & Hrun)|[Hall Hrun]])];
    rewrite Hrun; simpl.
  - split; [intros m0 w' H; discriminate H|].
    split; [intros i0 m0 Hno; by destruct Hno|].
    split; [split; [by left|done]|].
    split; [intros _; exists [], no_key_msg; by split; [|left]|].
    split; [intros e; discriminate|].
    intros f Ht Hs. rewrite (Hrest f Ht); [by rewrite Hrun|by rewrite Hrun].
  - split.
    { intros m0 w' H. injection H as <- <-. split; [by apply (Hpresent k)|].
      exists i. split; [done|reflexivity]. }
    split.
    { intros i' m' _ Hfw'.
      destruct (first_working_unique _ _ _ _ _ Hfw Hfw') as [_ ->]. reflexivity. }
    split.
    { split; [discriminate|]. intros [Habs|Hall].
      - by destruct (Hpresent k Hk Hne).
      - destruct Hfw as (Hi & [x Hx] & _). specialize (Hall i m Hi). congruence. }
    split; [discriminate|]. split; [intros e; discriminate|].
    intros f Ht Hs. discriminate Hs.
  - split; [intros m0 w' H; discriminate H|].
    split.
    { intros i0 m0 _ (Hi & [x Hx] & _). specialize (Hall i0 m0 Hi). congruence. }
    split; [split; [by right|done]|].
    split; [intros _; exists PREFERRED_MODELS, no_model_msg; by split; [|right]|].
    split; [intros e; discriminate|].
    intros f Ht Hs. rewrite (Hrest f Ht); [by rewrite Hrun|by rewrite Hrun].
Qed.

Lemma init_genai_selects_witness :
  fst (init_genai sample_world) = Ok (pystr "gemini-2.0-flash").
Proof.
  destruct (init_genai_selects sample_world) as (_ & H & _).
  apply (H 0%nat).
  - intros [E|E]; vm_compute in E; discriminate E.
  - split; [reflexivity|]. split; [by eexists|]. intros j mj Hj. lia.
Defined.

(** An empty key is no key: the run stops before any test request. *)
Example init_genai_empty_key :
  let w := {| env := {[ GOOGLE_API_KEY := [] ]}; disk := disk sample_world;
              api_key := None; trace := []; reads := 0;
              service := service sample_world; mkdtemp := mkdtemp sample_world;
              docx2pdf := docx2pdf sample_world; clock := clock sample_world |} in
  fst (init_genai w) = Stop /\ trace (snd (init_genai w)) = [EError no_key_msg].
Proof. vm_compute. split; reflexivity. Qed.

(** ** The [Generate RJ] run *)

Lemma generate_content_run m p t w :
  generate_content m p t w
  = (match service w (api_key w) (trace w) m p with
     | Some text => Ok text
     | None => Raise ApiError
     end, log (EModelCall m p t) w).
Proof. unfold generate_content. by destruct (service w _ _ m p). Qed.





Lemma probe_trace_calls ms : Forall (fun e => is_model_call e = true) (probe_trace ms).
Proof. unfold probe_trace. apply Forall_forall. intros e He.
  apply list_elem_of_In, in_map_iff in He as (m & <- & _). reflexivity. Qed.

Lemma probe_trace_no_download ms :
  Forall (fun e => is_download e = false) (probe_trace ms).
Proof. unfold probe_trace. apply Forall_forall. intros e He.
  apply list_elem_of_In, in_map_iff in He as (m & <- & _). reflexivity. Qed.


(** C5. With an empty topic the run stops at once: the one thing it does is
    show the message asking for a topic; no request goes to the model, no
    document is offered, and the disk is untouched. *)
Theorem empty_topic_aborts (f : form) (w : world) :
  topic f = [] ->
  on_generate f w = (Stop, log (EError (pystr "Please enter a topic.")) w)
  /\ trace (snd (on_generate f w)) = trace w ++ [EError (pystr "Please enter a topic.")]
  /\ List.filter is_model_call (trace (snd (on_generate f w)))
     = List.filter is_model_call (trace w)
  /\ List.filter is_download (trace (snd (on_generate f w)))
     = List.filter is_download (trace w)
  /\ disk (snd (on_generate f w)) = disk w.
Proof.
  intros Ht.
  assert (Hrun : on_generate f w
                 = (Stop, log (EError (pystr "Please enter a topic.")) w)).
  { unfold on_generate. rewrite bind_run. rewrite Ht. reflexivity. }
  rewrite Hrun. simpl. rewrite !List.filter_app. simpl. rewrite !app_nil_r. done.
Qed.

Lemma empty_topic_aborts_witness :
  on_generate {| assignment_name := []; student_name := []; rollno := [];
                 class_section := []; level := []; year_term := [];
                 journal_title := []; topic := []; subject_name := [] |}
              sample_world
  = (Stop, log (EError (pystr "Please enter a topic.")) sample_world).
Proof.
  apply (empty_topic_aborts
           {| assignment_name := []; student_name := []; rollno := [];
              class_section := []; level := []; year_term := [];
              journal_title := []; topic := []; subject_name := [] |}
           sample_world).
  reflexivity.
Defined.











(** ** More on [generate_section] *)

(** X7. [generate_section] sends one request, with the section prompt and
    a cap of 900 tokens.  When the service answers, the result is built from
    the words of the reply alone: all of them joined by single spaces when
    there are at most [nwords], otherwise the first [nwords] of them joined
    by single spaces and followed by three dots; there is no whitespace at
    either end.  When the request fails the exception leaves the function
    and nothing is asked again. *)
Theorem generate_section_result (model title tp : str) (nwords : Z) (w : world) :
  0 <= nwords ->
  let request := EModelCall model (section_prompt tp nwords) (Some 900) in
  let reply := service w (api_key w) (trace w) model (section_prompt tp nwords) in
  (forall text, reply = Some text ->
     generate_section model title tp nwords w
     = (Ok (if Z.of_nat (length (split_ws text)) <=? nwords
            then join [SPACE] (split_ws text)
            else join [SPACE] (take (Z.to_nat nwords) (split_ws text)) ++ pystr "..."),
        log request w))
  /\ (reply = None ->
      generate_section model title tp nwords w = (Raise ApiError, log request w)).
Proof.
  intros Hn request reply. subst request reply.
  unfold generate_section, call_gemini. rewrite !bind_run, generate_content_run.
  split.
  - intros text ->. cbv iota beta.
    change (ret (strip text) (log (EModelCall model (section_prompt tp nwords) (Some 900)) w))
      with (Ok (strip text), log (EModelCall model (section_prompt tp nwords) (Some 900)) w).
    cbv iota beta. unfold mret, M_ret, ret. by rewrite enforce_count_strip.
  - intros ->. reflexivity.
Qed.

Lemma generate_section_result_witness :
  0 <= 3
  /\ generate_section (pystr "gemini-2.0-flash") (pystr "Experiences")
       (pystr "recursion") 3 sample_world
     = (Ok (if Z.of_nat (length (split_ws (pystr "In this module, I have learned a lot.")))
               <=? 3
            then join [SPACE] (split_ws (pystr "In this module, I have learned a lot."))
            else join [SPACE]
                   (take (Z.to_nat 3)
                         (split_ws (pystr "In this module, I have learned a lot.")))
                 ++ pystr "..."),
        log (EModelCall (pystr "gemini-2.0-flash")
               (section_prompt (pystr "recursion") 3) (Some 900)) sample_world).
Proof.
  split; [lia|].
  apply (generate_section_result (pystr "gemini-2.0-flash") (pystr "Experiences")
           (pystr "recursion") 3 sample_world); [lia|reflexivity].
Defined.

Example generate_section_sample :
  fst (generate_section (pystr "gemini-2.0-flash") (pystr "Experiences")
         (pystr "recursion") 3 sample_world)
  = Ok (pystr "In this module,...").
Proof. vm_compute. reflexivity. Qed.

(** ** [convert_to_pdf] *)

Lemma under_self d : under d d = true.
Proof. unfold under. by rewrite bool_decide_eq_true_2. Qed.

Lemma rmtree_dirs d fs p : under d p = true -> p ∉ dirs (rmtree d fs).
Proof.
  intros Hp Hin. unfold rmtree in Hin. simpl in Hin.
  apply elem_of_filter in Hin as [Hf _]. congruence.
Qed.

Lemma rmtree_files d fs p : under d p = true -> files (rmtree d fs) !! p = None.
Proof.
  intros Hp. unfold rmtree. simpl. apply map_lookup_filter_None. right.
  intros x _. simpl. congruence.
Qed.

Lemma rmtree_files_other d fs p :
  under d p = false -> files (rmtree d fs) !! p = files fs !! p.
Proof.
  intros Hp. unfold rmtree. simpl.
  destruct (files fs !! p) as [x|] eqn:E.
  - apply map_lookup_filter_Some. split; [done|]. exact Hp.
  - apply map_lookup_filter_None. by left.
Qed.

Lemma rmtree_dirs_other d fs p :
  under d p = false -> p ∈ dirs (rmtree d fs) <-> p ∈ dirs fs.
Proof.
  intros Hp. unfold rmtree. simpl. rewrite elem_of_filter. tauto.
Qed.

(** C9. [convert_to_pdf] makes its temporary directory on entry, writes the
    document into it and runs the converter on that disk; whatever the
    converter does and however the call ends (the PDF bytes, a conversion
    error, or no PDF file to read), the disk it leaves has neither the
    directory nor anything below it, and is otherwise the disk the converter
    left. *)
Theorem convert_to_pdf_cleans_up (docx_bytes : blob) (w : world) :
  let tmpdir := mkdtemp w (disk w) in
  let docx_path := path_join tmpdir (pystr "temp.docx") in
  let pdf_path := path_join tmpdir (pystr "temp.pdf") in
  let inside := {| dirs := {[tmpdir]} ∪ dirs (disk w);
                   files := <[docx_path := docx_bytes]> (files (disk w)) |} in
  let converted := docx2pdf w inside docx_path pdf_path in
  let r := fst (convert_to_pdf docx_bytes w) in
  let after := disk (snd (convert_to_pdf docx_bytes w)) in
  ((tmpdir ∈ dirs inside) /\ files inside !! docx_path = Some docx_bytes)
  /\ after = rmtree tmpdir (snd converted)
  /\ (forall p, under tmpdir p = true -> (p ∉ dirs after) /\ files after !! p = None)
  /\ (tmpdir ∉ dirs after)
  /\ (forall p, under tmpdir p = false ->
        files after !! p = files (snd converted) !! p
        /\ (p ∈ dirs after <-> p ∈ dirs (snd converted)))
  /\ r = (if fst converted
          then match files (snd converted) !! pdf_path with
               | Some pdf => Ok pdf
               | None => Raise (FileNotFound pdf_path)
               end
          else Raise ConversionError)
  /\ trace (snd (convert_to_pdf docx_bytes w)) = trace w.
Proof.
  intros tmpdir docx_path pdf_path inside converted r after.
  assert (Hrun : convert_to_pdf docx_bytes w
                 = (if fst converted
                    then match files (snd converted) !! pdf_path with
                         | Some pdf => Ok pdf
                         | None => Raise (FileNotFound pdf_path)
                         end
                    else Raise ConversionError,
                    set_disk (rmtree tmpdir (snd converted)) w)).
  { unfold convert_to_pdf, with_TemporaryDirectory, mbind, M_bind, bind,
      write_file, convert, read_file.
    cbn [disk set_disk dirs files mkdir docx2pdf mkdtemp fst snd].
    fold tmpdir. fold docx_path. fold pdf_path. fold inside. fold converted.
    destruct converted as [[|] fs]; cbn [fst snd disk set_disk]; [|reflexivity].
    destruct (files fs !! pdf_path); reflexivity. }
  subst r after. rewrite Hrun. simpl.
  split; [split; [set_solver|apply lookup_insert_eq]|].
  split; [reflexivity|].
  split; [intros p Hp; split; [by apply rmtree_dirs|by apply rmtree_files]|].
  split; [apply rmtree_dirs, under_self|].
  split; [intros p Hp; split; [by apply rmtree_files_other|by apply rmtree_dirs_other]|].
  split; reflexivity.
Qed.

(** A converter that fails after leaving a file behind: the directory is
    gone all the same. *)
Example convert_to_pdf_failure :
  let w := {| env := ∅; disk := {| dirs := ∅; files := ∅ |}; api_key := None;
              trace := []; reads := 0; service := fun _ _ _ _ => None;
              mkdtemp := fun _ => pystr "/tmp/t";
              docx2pdf := fun fs _ dst =>
                (false, {| dirs := dirs fs;
                           files := <[dst := RawBytes [1%N]]> (files fs) |});
              clock := fun _ => 0 |} in
  fst (convert_to_pdf (RawBytes []) w) = Raise ConversionError
  /\ disk (snd (convert_to_pdf (RawBytes []) w)) = {| dirs := ∅; files := ∅ |}.
Proof. vm_compute. split; reflexivity. Qed.

(** ** Placeholder substitution *)

Lemma contains_nil s : contains [] s = true.
Proof. by destruct s. Qed.

Lemma contains_cons key c r :
  contains key (c :: r) = starts_with key (c :: r) || contains key r.
Proof. reflexivity. Qed.

Lemma replace_scan_absent old new s :
  contains old s = false -> replace_scan old new 0 s = s.
Proof.
  induction s as [|c r IH]; intros H; [done|].
  rewrite contains_cons in H. apply orb_false_elim in H as [Hs Hr].
  simpl replace_scan. rewrite Hs. by rewrite IH.
Qed.

Lemma str_replace_absent old new s :
  contains old s = false -> str_replace old new s = s.
Proof.
  intros H. destruct old as [|c k]; [by rewrite contains_nil in H|].
  by apply replace_scan_absent.
Qed.

Lemma replace_placeholders_cons key value data text :
  replace_placeholders ((key, value) :: data) text
  = if contains key text
    then match set_text (str_replace key value text) with
         | Some text' => replace_placeholders data text'
         | None => None
         end
    else replace_placeholders data text.
Proof. reflexivity. Qed.

Lemma replace_placeholders_absent data text :
  (forall kv, kv ∈ data -> contains (fst kv) text = false) ->
  replace_placeholders data text = Some text.
Proof.
  induction data as [|[k v] data IH]; intros H; [done|].
  rewrite replace_placeholders_cons.
  pose proof (H (k, v) ltac:(by left)) as Hk. simpl in Hk. rewrite Hk.
  apply IH. intros kv' Hin. apply H. by right.
Qed.

Lemma starts_with_app_long key x y :
  (length key <= length x)%nat -> starts_with key (x ++ y) = starts_with key x.
Proof.
  revert x. induction key as [|a key IH]; intros x Hlen; [done|].
  destruct x as [|b x]; [simpl in Hlen; lia|].
  simpl. f_equal. apply IH. simpl in Hlen. lia.
Qed.

Lemma replace_scan_skip old new x y :
  replace_scan old new (length x) (x ++ y) = replace_scan old new 0 y.
Proof. induction x as [|c x IH]; [by destruct y|]. exact IH. Qed.

Lemma replace_scan_first old new a b :
  old <> [] -> contains old (a ++ removelast old) = false ->
  replace_scan old new 0 (a ++ old ++ b) = a ++ new ++ replace_scan old new 0 b.
Proof.
  intros Hne. induction a as [|x a IH]; intros Ha.
  - destruct old as [|c k]; [done|].
    change ([] ++ (c :: k) ++ b) with (c :: (k ++ b)).
    change (replace_scan (c :: k) new 0 (c :: k ++ b))
      with (if starts_with (c :: k) (c :: k ++ b)
            then new ++ replace_scan (c :: k) new (length (c :: k) - 1) (k ++ b)
            else c :: replace_scan (c :: k) new 0 (k ++ b)).
    change (c :: k ++ b) with ((c :: k) ++ b) at 1.
    rewrite starts_with_app.
    replace (length (c :: k) - 1)%nat with (length k) by (simpl; lia).
    by rewrite replace_scan_skip.
  - change ((x :: a) ++ removelast old) with (x :: (a ++ removelast old)) in Ha.
    rewrite contains_cons in Ha. apply orb_false_elim in Ha as [Hs Hr].
    assert (Hs' : starts_with old (x :: (a ++ old ++ b)) = false).
    { rewrite (app_removelast_last 0%N Hne) at 2.
      rewrite <- app_assoc, app_assoc.
      change (x :: (a ++ removelast old) ++ [List.last old 0%N] ++ b)
        with ((x :: a ++ removelast old) ++ [List.last old 0%N] ++ b).
      rewrite starts_with_app_long; [exact Hs|].
      simpl. rewrite length_app.
      pose proof (f_equal length (app_removelast_last 0%N Hne)) as Hl.
      rewrite length_app in Hl. simpl in Hl. lia. }
    change ((x :: a) ++ old ++ b) with (x :: (a ++ old ++ b)).
    simpl replace_scan. rewrite Hs'. by rewrite IH.
Qed.

Lemma contains_app_intro key a b : contains key (a ++ key ++ b) = true.
Proof.
  induction a as [|x a IH].
  - rewrite app_nil_l. destruct key as [|c k]; [apply contains_nil|].
    change ((c :: k) ++ b) with (c :: (k ++ b)). rewrite contains_cons.
    change (c :: (k ++ b)) with ((c :: k) ++ b). by rewrite starts_with_app.
  - change ((x :: a) ++ key ++ b) with (x :: (a ++ key ++ b)).
    rewrite contains_cons, IH. apply orb_true_r.
Qed.


Lemma replace_placeholders_app d1 d2 text :
  replace_placeholders (d1 ++ d2) text
  = match replace_placeholders d1 text with
    | Some text' => replace_placeholders d2 text'
    | None => None
    end.
Proof.
  revert text. induction d1 as [|[k v] d1 IH]; intros text; [done|].
  rewrite <- app_comm_cons, !replace_placeholders_cons.
  destruct (contains k text); [|apply IH].
  destruct (set_text (str_replace k v text)); [apply IH|done].
Qed.

(** *** Items in another order *)





(** *** What [fill_template] does *)

Lemma fill_template_eq data w :
  fill_template data w
  = if path_exists TEMPLATE_PATH (disk w)
    then match files (disk w) !! TEMPLATE_PATH with
         | Some (DocxBytes _ doc) =>
           match fill_document data doc with
           | Some filled =>
             (Ok (DocxBytes (now w) (apply_font_styles filled)), tick w)
           | None => (Raise ValueError, w)
           end
         | Some (RawBytes _) => (Raise (BadPackage TEMPLATE_PATH), w)
         | None => (Raise (FileNotFound TEMPLATE_PATH), w)
         end
    else (Stop, log (EError template_missing_msg) w).
Proof.
  unfold fill_template. rewrite bind_run. unfold os_path_exists.
  destruct (path_exists TEMPLATE_PATH (disk w)); [|reflexivity].
  cbn [negb]. rewrite bind_run. unfold Document.
  destruct (files (disk w) !! TEMPLATE_PATH) as [[stamp d|b]|]; [|done|done].
  by destruct (fill_document data d).
Qed.


(** ** [fill_template] *)

Example str_replace_examples :
  str_replace (pystr "aa") (pystr "b") (pystr "aaa") = pystr "ba"
  /\ str_replace [] (pystr "X") (pystr "abc") = pystr "XaXbXcX"
  /\ contains (pystr "{{t}}") (pystr "a {{t}} b") = true.
Proof. repeat split; reflexivity. Qed.

Example fill_document_example :
  fill_document [ (pystr "{{title}}", pystr "Week 1") ]
    {| paragraphs := [ {| p_text := pystr "T: {{title}}!"; p_format := None |} ];
       tables := [ [ [ {| p_text := pystr "{{title}}"; p_format := None |} ] ] ] |}
  = Some {| paragraphs := [ {| p_text := pystr "T: Week 1!"; p_format := None |} ];
            tables := [ [ [ {| p_text := pystr "Week 1"; p_format := None |} ] ] ] |}.
Proof. vm_compute. reflexivity. Qed.

(** A carriage return in a value is stored as a line break and reads back
    as a line feed; a control character in a value cannot be stored. *)
Example replace_placeholders_line_break :
  replace_placeholders [ (pystr "{{a}}", [97; 13; 98]%N) ] (pystr "Dear {{a}}")
  = Some (pystr "Dear a" ++ [NEWLINE] ++ pystr "b")
  /\ replace_placeholders [ (pystr "{{a}}", [97; 8; 98]%N) ] (pystr "Dear {{a}}")
     = None.
Proof. split; vm_compute; reflexivity. Qed.




(** ** More on placeholder substitution *)

(** X8. A paragraph or cell whose text holds none of the keys comes out of
    the substitution as it went in: nothing is assigned to it. *)
Theorem fill_paragraph_untouched (data : list (str * str)) (p : paragraph) :
  (forall kv, kv ∈ data -> contains (fst kv) (p_text p) = false) ->
  fill_paragraph data p = Some p.
Proof.
  intros H. unfold fill_paragraph. rewrite replace_placeholders_absent by done.
  by destruct p.
Qed.

Lemma fill_paragraph_untouched_witness :
  fill_paragraph [ (pystr "{{title}}", pystr "Week 1") ]
    {| p_text := pystr "Reflective Journal"; p_format := None |}
  = Some {| p_text := pystr "Reflective Journal"; p_format := None |}.
Proof.
  apply (fill_paragraph_untouched [ (pystr "{{title}}", pystr "Week 1") ]
           {| p_text := pystr "Reflective Journal"; p_format := None |}).
  intros kv Hin. apply list_elem_of_singleton in Hin. subst kv.
  vm_compute. reflexivity.
Defined.

(** X9. A text that holds one placeholder is filled with its value: when
    the key occurs once in the text, at the place where it is written, no
    earlier key of the dict occurs in the text and no later key occurs in the
    filled text as the document stores it, the loop ends as the assignment
    of the text with the value in place of the key does: with that text as
    stored, a carriage return read back as a line feed, or with the
    [ValueError] of a character that cannot be stored. *)
Theorem replace_placeholders_one
  (before after : list (str * str)) (key value a b : str) :
  key <> [] ->
  (forall kv, kv ∈ before -> contains (fst kv) (a ++ key ++ b) = false) ->
  contains key (a ++ removelast key) = false ->
  contains key b = false ->
  (forall kv filled, kv ∈ after -> set_text (a ++ value ++ b) = Some filled ->
     contains (fst kv) filled = false) ->
  replace_placeholders (before ++ (key, value) :: after) (a ++ key ++ b)
  = set_text (a ++ value ++ b).
Proof.
  intros Hne Hbefore Ha Hb Hafter.
  rewrite replace_placeholders_app.
  rewrite (replace_placeholders_absent before _ Hbefore).
  rewrite replace_placeholders_cons, contains_app_intro.
  assert (Hrep : str_replace key value (a ++ key ++ b) = a ++ value ++ b).
  { destruct key as [|c k] eqn:Hk; [done|]. unfold str_replace.
    rewrite replace_scan_first by done.
    by rewrite replace_scan_absent. }
  rewrite Hrep.
  destruct (set_text (a ++ value ++ b)) as [filled|] eqn:Hset; [|done].
  apply replace_placeholders_absent. intros kv Hin. by apply Hafter.
Qed.

Lemma replace_placeholders_one_witness :
  replace_placeholders
    ([ (pystr "{{student_name}}", pystr "A. Student") ]
     ++ (pystr "{{title}}", [87; 13; 49]%N)
     :: [ (pystr "{{conclusion}}", pystr "The end.") ])
    (pystr "Title: " ++ pystr "{{title}}" ++ pystr "!")
  = set_text (pystr "Title: " ++ [87; 13; 49]%N ++ pystr "!")
  /\ set_text (pystr "Title: " ++ [87; 13; 49]%N ++ pystr "!")
     = Some (pystr "Title: " ++ [87; 10; 49]%N ++ pystr "!").
Proof.
  split; [|vm_compute; reflexivity].
  apply (replace_placeholders_one
           [ (pystr "{{student_name}}", pystr "A. Student") ]
           [ (pystr "{{conclusion}}", pystr "The end.") ]
           (pystr "{{title}}") [87; 13; 49]%N (pystr "Title: ") (pystr "!")).
  - vm_compute. discriminate.
  - intros kv Hin. apply list_elem_of_singleton in Hin. subst kv.
    vm_compute. reflexivity.
  - vm_compute. reflexivity.
  - vm_compute. reflexivity.
  - intros kv filled Hin Hset. apply list_elem_of_singleton in Hin. subst kv.
    vm_compute in Hset. injection Hset as <-. vm_compute. reflexivity.
Defined.

(** ** The whole run of the button *)

Lemma generate_section_eq model title tp n w :
  generate_section model title tp n w
  = (match service w (api_key w) (trace w) model (section_prompt tp n) with
     | Some text => Ok (enforce_count (strip text) n)
     | None => Raise ApiError
     end, log (EModelCall model (section_prompt tp n) (Some 900)) w).
Proof.
  unfold generate_section, call_gemini. rewrite !bind_run, generate_content_run.
  by destruct (service w _ _ model _).
Qed.

Lemma generate_apps_eq model tp n w :
  generate_apps model tp n w
  = (match service w (api_key w) (trace w) model (apps_prompt tp n) with
     | Some text => Ok (generate_apps_post tp n (strip text))
     | None => Raise ApiError
     end, log (EModelCall model (apps_prompt tp n) (Some 900)) w).
Proof.
  unfold generate_apps, call_gemini. rewrite !bind_run, generate_content_run.
  by destruct (service w _ _ model _).
Qed.

Lemma convert_to_pdf_eq docx w :
  convert_to_pdf docx w
  = (if fst (conversion w docx)
     then match files (snd (conversion w docx)) !! conversion_pdf_path w with
          | Some pdf => Ok pdf
          | None => Raise (FileNotFound (conversion_pdf_path w))
          end
     else Raise ConversionError,
     set_disk (rmtree (conversion_dir w) (snd (conversion w docx))) w).
Proof.
  unfold convert_to_pdf, with_TemporaryDirectory, mbind, M_bind, bind,
    write_file, convert, read_file.
  cbn [disk set_disk dirs files mkdir docx2pdf mkdtemp fst snd].
  fold (conversion_dir w). fold (conversion_docx_path w).
  fold (conversion_pdf_path w). fold (conversion_input w docx).
  fold (conversion w docx).
  destruct (conversion w docx) as [[|] fs]; cbn [fst snd disk set_disk]; [|reflexivity].
  destruct (files fs !! conversion_pdf_path w); reflexivity.
Qed.

Lemma run_ends_events f w r evs evs' fs :
  run_ends f w r evs fs -> evs = evs' -> run_ends f w r evs' fs.
Proof. by intros H <-. Qed.

Lemma truthy_nonempty (s : str) : truthy s = true -> s <> [].
Proof. by destruct s. Qed.

(** Closing a branch of the run: the events are read off the final world,
    and the way the run ended is one of [run_ends]. *)
Ltac run_leaf ctor :=
  eexists _, _, _; split; [reflexivity|];
  cbn [fst snd trace env disk logs set_api_key set_disk log tick];
  split; [rewrite <- ?app_assoc; reflexivity|]; split; [reflexivity|];
  eapply run_ends_events;
  [ ctor
  | cbn [generation_requests generation_prompts map take];
    rewrite <- ?app_assoc; reflexivity ].

Lemma on_generate_run_eq f w :
  exists r w' evs,
    on_generate f w = (r, w')
    /\ trace w' = trace w ++ evs
    /\ env w' = env w
    /\ run_ends f w r evs (disk w').
Proof.
  unfold on_generate. rewrite bind_run.
  destruct (truthy (topic f)) eqn:Htopic; cbn [negb].
  2:{ run_leaf ltac:(apply ends_no_topic; by destruct (topic f)). }
  apply truthy_nonempty in Htopic.
  change (ret tt w) with (Ok tt, w). cbv iota beta. rewrite bind_run.
  destruct (init_genai_run w)
    as [[Habs Hrun]|(k & Hk & Hne & [(i & m & Hfw & Hrun)|[Hall Hrun]])];
    rewrite Hrun.
  { run_leaf ltac:(by apply ends_no_key). }
  2:{ assert (Hpres : ~ credential_absent w).
      { intros [H|H]; rewrite Hk in H; [discriminate|]. by injection H. }
      run_leaf ltac:(by apply ends_no_model). }
  assert (Hpres : ~ credential_absent w).
  { intros [H|H]; rewrite Hk in H; [discriminate|]. by injection H. }
  rewrite bind_run. unfold st_success at 1. cbv iota beta.
  rewrite log_logs, logs_logs.
  rewrite bind_run, generate_section_eq.
  match goal with |- context [service ?W ?K ?H m ?P] =>
    destruct (service W K H m P) as [r1|] eqn:E1 end; rewrite log_logs, logs_logs.
  2:{ run_leaf ltac:(apply (ends_generation_fails f w i m 0); eauto; lia). }
  rewrite bind_run, generate_section_eq.
  match goal with |- context [service ?W ?K ?H m ?P] =>
    destruct (service W K H m P) as [r2|] eqn:E2 end; rewrite log_logs, logs_logs.
  2:{ run_leaf ltac:(apply (ends_generation_fails f w i m 1); eauto; lia). }
  rewrite bind_run, generate_section_eq.
  match goal with |- context [service ?W ?K ?H m ?P] =>
    destruct (service W K H m P) as [r3|] eqn:E3 end; rewrite log_logs, logs_logs.
  2:{ run_leaf ltac:(apply (ends_generation_fails f w i m 2); eauto; lia). }
  rewrite bind_run, generate_section_eq.
  match goal with |- context [service ?W ?K ?H m ?P] =>
    destruct (service W K H m P) as [r4|] eqn:E4 end; rewrite log_logs, logs_logs.
  2:{ run_leaf ltac:(apply (ends_generation_fails f w i m 3); eauto; lia). }
  rewrite bind_run, generate_apps_eq.
  match goal with |- context [service ?W ?K ?H m ?P] =>
    destruct (service W K H m P) as [r5|] eqn:E5 end; rewrite log_logs, logs_logs.
  2:{ run_leaf ltac:(apply (ends_generation_fails f w i m 4); eauto; lia). }
  rewrite bind_run, fill_template_eq.
  cbn [disk logs set_api_key].
  destruct (path_exists TEMPLATE_PATH (disk w)) eqn:Hexists.
  2:{ rewrite log_logs, logs_logs. run_leaf ltac:(by apply ends_no_template). }
  destruct (files (disk w) !! TEMPLATE_PATH) as [[stamp doc|raw]|] eqn:Hfile.
  2:{ run_leaf ltac:(apply ends_bad_template; try done;
                     [intros s d; congruence|by left]). }
  2:{ run_leaf ltac:(apply ends_bad_template; try done;
                     [intros s d; congruence|by right]). }
  fold (generated_data f r1 r2 r3 r4 r5).
  match goal with |- context [now ?W] => change (now W) with (now w) end.
  destruct (fill_document (generated_data f r1 r2 r3 r4 r5) doc)
    as [filled|] eqn:Hfill.
  2:{ assert (Hdocx : filled_docx f (now w) doc r1 r2 r3 r4 r5 = None)
        by (unfold filled_docx; by rewrite Hfill).
      run_leaf ltac:(by apply (ends_bad_value f w i m stamp doc r1 r2 r3 r4 r5)). }
  set (docx := DocxBytes (now w) (apply_font_styles filled)).
  assert (Hdocx : filled_docx f (now w) doc r1 r2 r3 r4 r5 = Some docx)
    by (unfold filled_docx; by rewrite Hfill).
  rewrite bind_run. unfold st_download_button at 1. cbv iota beta.
  fold (docx_download docx).
  rewrite log_logs.
  rewrite bind_run, convert_to_pdf_eq.
  match goal with |- context [conversion ?W ?D] =>
    change (conversion W D) with (conversion w D);
    change (conversion_dir W) with (conversion_dir w);
    change (conversion_pdf_path W) with (conversion_pdf_path w) end.
  destruct (fst (conversion w docx)) eqn:Hconv.
  2:{ run_leaf ltac:(apply (ends_conversion_fails f w i m stamp doc r1 r2 r3 r4 r5 docx);
                     try done; by left). }
  destruct (files (snd (conversion w docx)) !! conversion_pdf_path w)
    as [pdf|] eqn:Hpdf.
  2:{ run_leaf ltac:(apply (ends_conversion_fails f w i m stamp doc r1 r2 r3 r4 r5 docx);
                     try done; right; by repeat split). }
  unfold st_download_button. fold (pdf_download pdf).
  run_leaf ltac:(by apply (ends_done f w i m stamp doc r1 r2 r3 r4 r5 docx pdf)).
Qed.

Lemma on_generate_run f w :
  exists evs,
    trace (snd (on_generate f w)) = trace w ++ evs
    /\ env (snd (on_generate f w)) = env w
    /\ run_ends f w (fst (on_generate f w)) evs (disk (snd (on_generate f w))).
Proof.
  destruct (on_generate_run_eq f w) as (r & w' & evs & -> & Ht & He & Hr).
  by exists evs.
Qed.

(** *** Selecting events *)

Lemma filter_all {A} (p : A -> bool) l :
  Forall (fun x => p x = true) l -> List.filter p l = l.
Proof. induction 1 as [|x l Hx _ IH]; [done|]. simpl. by rewrite Hx, IH. Qed.

Lemma filter_none {A} (p : A -> bool) l :
  Forall (fun x => p x = false) l -> List.filter p l = [].
Proof. induction 1 as [|x l Hx _ IH]; [done|]. simpl. by rewrite Hx. Qed.

Lemma generation_requests_calls m tp :
  Forall (fun e => is_model_call e = true) (generation_requests m tp).
Proof. by repeat constructor. Qed.

Lemma generation_requests_no_download m tp :
  Forall (fun e => is_download e = false) (generation_requests m tp).
Proof. by repeat constructor. Qed.

Lemma generation_requests_no_error m tp :
  Forall (fun e => is_error e = false) (generation_requests m tp).
Proof. by repeat constructor. Qed.

Lemma probe_trace_not_error ms :
  Forall (fun e => is_error e = false) (probe_trace ms).
Proof. unfold probe_trace. apply Forall_forall. intros e He.
  apply list_elem_of_In, in_map_iff in He as (m & <- & _). reflexivity. Qed.

Lemma calls_of_run ms s m tp j rest :
  is_model_call s = false ->
  Forall (fun e => is_model_call e = false) rest ->
  List.filter is_model_call
    (probe_trace ms ++ s :: take j (generation_requests m tp) ++ rest)
  = probe_trace ms ++ take j (generation_requests m tp).
Proof.
  intros Hs Hrest. rewrite List.filter_app. simpl. rewrite Hs.
  rewrite List.filter_app, (filter_none _ rest Hrest), app_nil_r.
  rewrite (filter_all _ (probe_trace ms)) by apply probe_trace_calls.
  rewrite (filter_all _ (take j _)); [done|].
  apply Forall_take, generation_requests_calls.
Qed.

Lemma downloads_of_run ms s m tp j rest :
  is_download s = false ->
  List.filter is_download
    (probe_trace ms ++ s :: take j (generation_requests m tp) ++ rest)
  = List.filter is_download rest.
Proof.
  intros Hs. rewrite List.filter_app. simpl. rewrite Hs.
  rewrite List.filter_app.
  rewrite (filter_none _ (probe_trace ms)) by apply probe_trace_no_download.
  rewrite (filter_none _ (take j _)); [done|].
  apply Forall_take, generation_requests_no_download.
Qed.

Lemma errors_of_run ms s m tp j rest :
  is_error s = false ->
  List.filter is_error
    (probe_trace ms ++ s :: take j (generation_requests m tp) ++ rest)
  = List.filter is_error rest.
Proof.
  intros Hs. rewrite List.filter_app. simpl. rewrite Hs.
  rewrite List.filter_app.
  rewrite (filter_none _ (probe_trace ms)) by apply probe_trace_not_error.
  rewrite (filter_none _ (take j _)); [done|].
  apply Forall_take, generation_requests_no_error.
Qed.

Lemma take_generation_requests m tp :
  generation_requests m tp = take 5 (generation_requests m tp).
Proof. reflexivity. Qed.

Lemma first_working_index w i m :
  first_working w i m -> (S i <= 4)%nat /\ PREFERRED_MODELS !! (S i - 1)%nat = Some m.
Proof.
  intros (Hi & _ & _). split.
  - apply lookup_lt_Some in Hi. exact Hi.
  - by rewrite Nat.sub_1_r.
Qed.

(** X10. One run of the button sends at most nine requests to the model:
    test requests to the first [k <= 4] candidates in the order of the list,
    then the first [j <= 5] of the five generation requests in their fixed
    order, all to the candidate that was probed last.  No request is sent
    with an empty topic or without a credential. *)
Theorem on_generate_requests (f : form) (w : world) :
  exists evs k j m,
    trace (snd (on_generate f w)) = trace w ++ evs
    /\ List.filter is_model_call evs
       = probe_trace (take k PREFERRED_MODELS)
         ++ take j (generation_requests m (topic f))
    /\ (k <= 4)%nat /\ (j <= 5)%nat
    /\ ((0 < j)%nat -> PREFERRED_MODELS !! (k - 1)%nat = Some m /\ (0 < k)%nat)
    /\ ((0 < k)%nat -> topic f <> [] /\ ~ credential_absent w)
    /\ (length (List.filter is_model_call evs) <= 9)%nat.
Proof.
  destruct (on_generate_run f w) as (evs & Ht & _ & Hr).
  assert (Hlen : forall k j m,
             (k <= 4)%nat -> (j <= 5)%nat ->
             (length (probe_trace (take k PREFERRED_MODELS)
                      ++ take j (generation_requests m (topic f))) <= 9)%nat).
  { intros k j m Hk Hj. unfold probe_trace.
    rewrite length_app, length_map, !length_take. lia. }
  exists evs.
  destruct Hr as [Htp|Htp Hk|Htp Hk Hall|i m j Htp Hk Hfw Hj _|i m Htp Hk Hfw _
                 |i m e Htp Hk Hfw _ _ _
                 |i m stamp doc r1 r2 r3 r4 r5 Htp Hk Hfw _ _
                 |i m stamp doc r1 r2 r3 r4 r5 docx e Htp Hk Hfw _ _ _
                 |i m stamp doc r1 r2 r3 r4 r5 docx pdf Htp Hk Hfw _ _ _ _].
  - exists 0%nat, 0%nat, []. split; [done|]. split; [done|].
    repeat split; try lia. simpl. lia.
  - exists 0%nat, 0%nat, []. split; [done|]. split; [done|].
    repeat split; try lia. simpl. lia.
  - exists 4%nat, 0%nat, []. split; [done|].
    split; [vm_compute; reflexivity|].
    repeat split; try lia; try done. vm_compute. lia.
  - destruct (first_working_index w i m Hfw) as [Hi Hm].
    exists (S i), (S j), m. split; [done|].
    assert (E : List.filter is_model_call
                  (probe_trace (take (S i) PREFERRED_MODELS)
                   ++ ESuccess (pystr "Using model: " ++ m)
                   :: take (S j) (generation_requests m (topic f)))
                = probe_trace (take (S i) PREFERRED_MODELS)
                  ++ take (S j) (generation_requests m (topic f))).
    { rewrite <- (app_nil_r (take (S j) _)) at 1. by apply calls_of_run. }
    rewrite E. repeat split; try lia; try done. apply Hlen; lia.
  - destruct (first_working_index w i m Hfw) as [Hi Hm].
    exists (S i), 5%nat, m. split; [done|].
    assert (E : List.filter is_model_call
                  (probe_trace (take (S i) PREFERRED_MODELS)
                   ++ ESuccess (pystr "Using model: " ++ m)
                   :: generation_requests m (topic f)
                   ++ [EError template_missing_msg])
                = probe_trace (take (S i) PREFERRED_MODELS)
                  ++ take 5 (generation_requests m (topic f))).
    { rewrite (take_generation_requests m (topic f)) at 1.
      apply calls_of_run; [done|by repeat constructor]. }
    rewrite E. repeat split; try lia; try done. apply Hlen; lia.
  - destruct (first_working_index w i m Hfw) as [Hi Hm].
    exists (S i), 5%nat, m. split; [done|].
    assert (E : List.filter is_model_call
                  (probe_trace (take (S i) PREFERRED_MODELS)
                   ++ ESuccess (pystr "Using model: " ++ m)
                   :: generation_requests m (topic f))
                = probe_trace (take (S i) PREFERRED_MODELS)
                  ++ take 5 (generation_requests m (topic f))).
    { rewrite (take_generation_requests m (topic f)) at 1.
      rewrite <- (app_nil_r (take 5 _)) at 1. by apply calls_of_run. }
    rewrite E. repeat split; try lia; try done. apply Hlen; lia.
  - destruct (first_working_index w i m Hfw) as [Hi Hm].
    exists (S i), 5%nat, m. split; [done|].
    assert (E : List.filter is_model_call
                  (probe_trace (take (S i) PREFERRED_MODELS)
                   ++ ESuccess (pystr "Using model: " ++ m)
                   :: generation_requests m (topic f))
                = probe_trace (take (S i) PREFERRED_MODELS)
                  ++ take 5 (generation_requests m (topic f))).
    { rewrite (take_generation_requests m (topic f)) at 1.
      rewrite <- (app_nil_r (take 5 _)) at 1. by apply calls_of_run. }
    rewrite E. repeat split; try lia; try done. apply Hlen; lia.
  - destruct (first_working_index w i m Hfw) as [Hi Hm].
    exists (S i), 5%nat, m. split; [done|].
    assert (E : List.filter is_model_call
                  (probe_trace (take (S i) PREFERRED_MODELS)
                   ++ ESuccess (pystr "Using model: " ++ m)
                   :: generation_requests m (topic f) ++ [docx_download docx])
                = probe_trace (take (S i) PREFERRED_MODELS)
                  ++ take 5 (generation_requests m (topic f))).
    { rewrite (take_generation_requests m (topic f)) at 1.
      apply calls_of_run; [done|by repeat constructor]. }
    rewrite E. repeat split; try lia; try done. apply Hlen; lia.
  - destruct (first_working_index w i m Hfw) as [Hi Hm].
    exists (S i), 5%nat, m. split; [done|].
    assert (E : List.filter is_model_call
                  (probe_trace (take (S i) PREFERRED_MODELS)
                   ++ ESuccess (pystr "Using model: " ++ m)
                   :: generation_requests m (topic f)
                   ++ [docx_download docx; pdf_download pdf])
                = probe_trace (take (S i) PREFERRED_MODELS)
                  ++ take 5 (generation_requests m (topic f))).
    { rewrite (take_generation_requests m (topic f)) at 1.
      apply calls_of_run; [done|by repeat constructor]. }
    rewrite E. repeat split; try lia; try done. apply Hlen; lia.
Qed.

(** X11. Downloads are the last thing a run does.  The events of a run are
    some events that are not downloads, followed by no download, by the DOCX
    download alone, or by the DOCX download and then the PDF download; the
    run ends well exactly in the last case.  A download is offered only when
    the template on disk is a document. *)
Theorem on_generate_downloads (f : form) (w : world) :
  exists evs before,
    trace (snd (on_generate f w)) = trace w ++ evs
    /\ evs = before ++ List.filter is_download evs
    /\ Forall (fun e => is_download e = false) before
    /\ (List.filter is_download evs = []
        \/ (exists docx, List.filter is_download evs = [docx_download docx])
        \/ (exists docx pdf,
              List.filter is_download evs = [docx_download docx; pdf_download pdf]))
    /\ (fst (on_generate f w) = Ok tt
        <-> exists docx pdf,
              List.filter is_download evs = [docx_download docx; pdf_download pdf])
    /\ (List.filter is_download evs <> [] ->
        exists stamp doc, files (disk w) !! TEMPLATE_PATH = Some (DocxBytes stamp doc)).
Proof.
  destruct (on_generate_run f w) as (evs & Ht & _ & Hr).
  exists evs.
  assert (Hnone : forall r,
             fst (on_generate f w) = r -> r <> Ok tt ->
             List.filter is_download evs = [] ->
             exists before,
               trace (snd (on_generate f w)) = trace w ++ evs
               /\ evs = before ++ List.filter is_download evs
               /\ Forall (fun e => is_download e = false) before
               /\ (List.filter is_download evs = []
                   \/ (exists docx, List.filter is_download evs = [docx_download docx])
                   \/ (exists docx pdf,
                         List.filter is_download evs
                         = [docx_download docx; pdf_download pdf]))
               /\ (fst (on_generate f w) = Ok tt
                   <-> exists docx pdf,
                         List.filter is_download evs
                         = [docx_download docx; pdf_download pdf])
               /\ (List.filter is_download evs <> [] ->
                   exists stamp doc,
                     files (disk w) !! TEMPLATE_PATH = Some (DocxBytes stamp doc))).
  { intros r Hfst Hr' E. exists evs. rewrite E, app_nil_r, Hfst.
    split; [done|]. split; [done|].
    split.
    { apply Forall_forall. intros e He.
      destruct (is_download e) eqn:Hd; [|done].
      assert (Hin : In e (List.filter is_download evs))
        by (apply filter_In; split; [by apply list_elem_of_In|done]).
      rewrite E in Hin. destruct Hin. }
    split; [by left|]. split; [|done].
    split; [done|]. intros (docx & pdf & H). discriminate H. }
  destruct Hr as [Htp|Htp Hk|Htp Hk Hall|i m j Htp Hk Hfw Hj _|i m Htp Hk Hfw _
                 |i m e Htp Hk Hfw _ _ _
                 |i m stamp doc r1 r2 r3 r4 r5 Htp Hk Hfw Hdoc _
                 |i m stamp doc r1 r2 r3 r4 r5 docx e Htp Hk Hfw Hdoc _ _
                 |i m stamp doc r1 r2 r3 r4 r5 docx pdf Htp Hk Hfw Hdoc _ _ _].
  - by apply (Hnone Stop).
  - by apply (Hnone Stop).
  - apply (Hnone Stop); [done|done|].
    apply filter_none, Forall_app. split; [apply probe_trace_no_download|].
    by repeat constructor.
  - apply (Hnone (Raise ApiError)); [done|done|].
    rewrite <- (app_nil_r (take (S j) _)). by rewrite downloads_of_run.
  - apply (Hnone Stop); [done|done|].
    rewrite (take_generation_requests m (topic f)).
    by rewrite downloads_of_run.
  - apply (Hnone (Raise e)); [done|done|].
    rewrite (take_generation_requests m (topic f)).
    rewrite <- (app_nil_r (take 5 _)). by rewrite downloads_of_run.
  - apply (Hnone (Raise ValueError)); [done|done|].
    rewrite (take_generation_requests m (topic f)).
    rewrite <- (app_nil_r (take 5 _)). by rewrite downloads_of_run.
  - assert (E : List.filter is_download
                  (probe_trace (take (S i) PREFERRED_MODELS)
                   ++ ESuccess (pystr "Using model: " ++ m)
                   :: generation_requests m (topic f) ++ [docx_download docx])
                = [docx_download docx]).
    { rewrite (take_generation_requests m (topic f)).
      by rewrite downloads_of_run. }
    rewrite E.
    exists (probe_trace (take (S i) PREFERRED_MODELS)
            ++ ESuccess (pystr "Using model: " ++ m)
            :: generation_requests m (topic f)).
    split; [done|]. split; [by rewrite <- app_assoc|].
    split.
    { apply Forall_app. split; [apply probe_trace_no_download|].
      constructor; [done|apply generation_requests_no_download]. }
    split; [right; left; by exists docx|].
    split; [|intros _; by exists stamp, doc].
    split; [intros H; discriminate H|].
    intros (d & p & H). discriminate H.
  - assert (E : List.filter is_download
                  (probe_trace (take (S i) PREFERRED_MODELS)
                   ++ ESuccess (pystr "Using model: " ++ m)
                   :: generation_requests m (topic f)
                   ++ [docx_download docx; pdf_download pdf])
                = [docx_download docx; pdf_download pdf]).
    { rewrite (take_generation_requests m (topic f)).
      by rewrite downloads_of_run. }
    rewrite E.
    exists (probe_trace (take (S i) PREFERRED_MODELS)
            ++ ESuccess (pystr "Using model: " ++ m)
            :: generation_requests m (topic f)).
    split; [done|]. split; [by rewrite <- app_assoc|].
    split.
    { apply Forall_app. split; [apply probe_trace_no_download|].
      constructor; [done|apply generation_requests_no_download]. }
    split; [right; right; by exists docx, pdf|].
    split; [|intros _; by exists stamp, doc].
    split; [intros _; by exists docx, pdf|done].
Qed.







(** The two ways in two worlds: a run that ends well, and a run whose
    service puts a backspace into its replies. *)
Example on_generate_working :
  fst (on_generate sample_form working_world) = Ok tt
  /\ disk (snd (on_generate sample_form working_world)) = disk working_world.
Proof. vm_compute. split; reflexivity. Qed.

Example on_generate_backspace :
  fst (on_generate sample_form backspace_world) = Raise ValueError
  /\ List.filter is_download (trace (snd (on_generate sample_form backspace_world))) = []
  /\ disk (snd (on_generate sample_form backspace_world)) = disk backspace_world.
Proof. vm_compute. repeat split; reflexivity. Qed.

(** X15. A run shows at most one error message of its own.  It ends
    stopped exactly when it shows one, and then the message is its last
    event and is one of four: no topic, no credential, no working model, no
    template.  A run that ends well or with an exception shows none. *)
Theorem on_generate_stop_message (f : form) (w : world) :
  exists evs,
    trace (snd (on_generate f w)) = trace w ++ evs
    /\ (fst (on_generate f w) = Stop ->
        exists msg,
          List.filter is_error evs = [EError msg]
          /\ last evs = Some (EError msg)
          /\ msg ∈ [no_topic_msg; no_key_msg; no_model_msg; template_missing_msg])
    /\ (fst (on_generate f w) <> Stop -> List.filter is_error evs = []).
Proof.
  destruct (on_generate_run f w) as (evs & Ht & _ & Hr).
  exists evs. split; [exact Ht|].
  destruct Hr as [Htp|Htp Hk|Htp Hk Hall|i m j Htp Hk Hfw Hj _|i m Htp Hk Hfw _
                 |i m e Htp Hk Hfw _ _ _
                 |i m stamp doc r1 r2 r3 r4 r5 Htp Hk Hfw Hdoc _
                 |i m stamp doc r1 r2 r3 r4 r5 docx e Htp Hk Hfw Hdoc _ _
                 |i m stamp doc r1 r2 r3 r4 r5 docx pdf Htp Hk Hfw Hdoc _ _ _].
  - split; [|done]. intros _. exists no_topic_msg.
    split; [reflexivity|]. split; [reflexivity|]. left.
  - split; [|done]. intros _. exists no_key_msg.
    split; [reflexivity|]. split; [reflexivity|]. right; left.
  - split; [|done]. intros _. exists no_model_msg. split.
    { rewrite List.filter_app.
      by rewrite (filter_none _ (probe_trace _)) by apply probe_trace_not_error. }
    split; [apply last_snoc|do 2 right; left].
  - split; [done|]. intros _.
    rewrite <- (app_nil_r (take (S j) _)). by rewrite errors_of_run.
  - split; [|done]. intros _. exists template_missing_msg. split.
    { rewrite (take_generation_requests m (topic f)). by rewrite errors_of_run. }
    split; [|do 3 right; left].
    rewrite app_comm_cons, app_assoc. apply last_snoc.
  - split; [done|]. intros _.
    rewrite (take_generation_requests m (topic f)).
    rewrite <- (app_nil_r (take 5 _)). by rewrite errors_of_run.
  - split; [done|]. intros _.
    rewrite (take_generation_requests m (topic f)).
    rewrite <- (app_nil_r (take 5 _)). by rewrite errors_of_run.
  - split; [done|]. intros _.
    rewrite (take_generation_requests m (topic f)). by rewrite errors_of_run.
  - split; [done|]. intros _.
    rewrite (take_generation_requests m (topic f)). by rewrite errors_of_run.
Qed.

(** X16. A run never changes the environment variables, and it leaves the
    disk as it found it unless it got as far as the conversion, that is,
    unless it offered a download. *)
Theorem on_generate_frame (f : form) (w : world) :
  exists evs,
    trace (snd (on_generate f w)) = trace w ++ evs
    /\ env (snd (on_generate f w)) = env w
    /\ (List.filter is_download evs = [] -> disk (snd (on_generate f w)) = disk w).
Proof.
  destruct (on_generate_run f w) as (evs & Ht & He & Hr).
  exists evs. split; [exact Ht|]. split; [exact He|].
  destruct Hr as [Htp|Htp Hk|Htp Hk Hall|i m j Htp Hk Hfw Hj _|i m Htp Hk Hfw _
                 |i m e Htp Hk Hfw _ _ _
                 |i m stamp doc r1 r2 r3 r4 r5 Htp Hk Hfw Hdoc _
                 |i m stamp doc r1 r2 r3 r4 r5 docx e Htp Hk Hfw Hdoc _ _
                 |i m stamp doc r1 r2 r3 r4 r5 docx pdf Htp Hk Hfw Hdoc _ _ _];
    try done.
  - rewrite (take_generation_requests m (topic f)), downloads_of_run by done.
    discriminate.
  - rewrite (take_generation_requests m (topic f)), downloads_of_run by done.
    discriminate.
Qed.
